(** * The learning journal: entry lifecycle and authentication

    A shallow embedding of [journal.py]: the [Entry] model class with its
    queries, the views [add_entry], [read_entries], [detail_entry], [edit],
    [login] and [do_login], and the per-request transaction that wraps every
    view.

    What the program delegates to libraries is kept behind small
    interfaces: the markdown renderer, the password manager, the
    [ORDER BY created DESC] of the database and its conversion of a text
    to an [integer] are type classes; the session of the object-relational
    mapper (pending writes, flush before a query, commit or rollback at
    the end of a request) is an explicit state and error monad.  The ids
    that a request carries are texts, as they come from the URL and the
    form; the sequence behind the [id] column is part of the store, and
    is not rolled back.  *)

From Stdlib Require Import ZArith Lia.
From stdpp Require Import base option list sorting strings gmap.

Local Open Scope Z_scope.

(** ** Python values used by the views *)

(** Truthiness of a request parameter: [None] and the empty string are
    falsy. *)
Definition truthy (v : option string) : bool :=
  match v with
  | Some s => negb (String.eqb s "")
  | None => false
  end.

(** The exceptions that can travel through a view.  [IntegrityError] and
    [DataError] are the mapper's wrappers around a rejected statement; they
    are not subclasses of [psycopg2.Error], which is what the views catch. *)
Inductive exn : Type :=
  | NoResultFound
  | MultipleResultsFound
  | IntegrityError
  | DataError
  | Psycopg2Error
  | ValueError (msg : string)
  | AttributeError.

Definition is_psycopg2_Error (e : exn) : bool :=
  match e with
  | Psycopg2Error => true
  | _ => false
  end.


(** ** [datetime.datetime] *)

Module Datetime.

Record t : Type := mk {
  year : Z; month : Z; day : Z;
  hour : Z; minute : Z; second : Z; microsecond : Z
}.

Definition fields (d : t) : list Z :=
  [year d; month d; day d; hour d; minute d; second d; microsecond d].

(** Naive datetimes compare field by field, most significant first. *)
Fixpoint lex_compare (l1 l2 : list Z) : comparison :=
  match l1, l2 with
  | [], [] => Eq
  | [], _ :: _ => Lt
  | _ :: _, [] => Gt
  | x :: l1', y :: l2' =>
      match x ?= y with
      | Eq => lex_compare l1' l2'
      | c => c
      end
  end.

Definition compare (a b : t) : comparison := lex_compare (fields a) (fields b).

Definition ltb (a b : t) : bool :=
  match compare a b with Lt => true | _ => false end.
Definition leb (a b : t) : bool :=
  match compare a b with Gt => false | _ => true end.

Definition lt (a b : t) : Prop := ltb a b = true.
Definition le (a b : t) : Prop := leb a b = true.

(** [strftime('%b %d, %Y')] in the default locale. *)
Definition month_abbr (m : Z) : string :=
  match m with
  | 1 => "Jan" | 2 => "Feb" | 3 => "Mar" | 4 => "Apr"
  | 5 => "May" | 6 => "Jun" | 7 => "Jul" | 8 => "Aug"
  | 9 => "Sep" | 10 => "Oct" | 11 => "Nov" | 12 => "Dec"
  | _ => ""
  end.

Definition digit (n : Z) : string :=
  String (Ascii.ascii_of_nat (48 + Z.to_nat (n mod 10))) "".

Definition strftime_b_d_Y (d : t) : string :=
  month_abbr (month d) +:+ " "
    +:+ digit (day d / 10) +:+ digit (day d)
    +:+ ", "
    +:+ digit (year d / 1000) +:+ digit (year d / 100)
    +:+ digit (year d / 10) +:+ digit (year d).

End Datetime.

(** ** Collaborators *)

(** [markdown.markdown(text, extensions=['codehilite', 'fenced_code'])]. *)
Class Markdown : Type := markdown : string → string.

(** [BCRYPTPasswordManager().check(hashed, password)]. *)
Class PasswordManager : Type := check : string → string → bool.

(** The conversion to [integer] that the database applies to a text it
    has to compare with the [id] column: [None] when it rejects the text,
    because it is not a number or because the number is outside the 32
    bits of the type. *)
Class Int4 : Type := {
  int4_in : string → option Z;
  int4_in_range : ∀ s i, int4_in s = Some i → -2147483648 ≤ i ≤ 2147483647
}.

(** ** Requests *)

Inductive Method : Type := GET | POST | OTHER.

(** [params] holds the form and query fields, the [id] of the edit view
    among them, as the texts they are.  [matchdict_id] is
    [request.matchdict['id']], the text that the route [/detail/{id}]
    matched.  [utcnow] is the reading of the clock that
    [datetime.datetime.utcnow()] returns during the request. *)
Record Request : Type := mkRequest {
  method : Method;
  params : gmap string string;
  matchdict_id : string;
  authenticated_userid : option string;
  utcnow : Datetime.t;
  settings : gmap string string
}.

(** ** The session of the object-relational mapper *)

(** What a mapped class tells the mapper: its primary key column, the
    conversion of the values of a row to the types of the columns, and the
    constraints of its table ([None] when a row passes, otherwise the
    error the database answers with). *)
Class Mapped (A : Type) : Type := {
  primary_key : A → option Z;
  set_primary_key : Z → A → A;
  check_values : A → option exn;
  check_constraints : A → option exn
}.

Section DBSession.
Context {A : Type} `{!Mapped A}.

(** The table and its auto-increment sequence. *)
Record Store : Type := mkStore { rows : list A; next_id : Z }.

(** Writes the session has recorded and not yet sent. *)
Inductive write : Type :=
  | Insert (a : A)
  | Update (a : A).

Record Session : Type := mkSession { db : Store; pending : list write }.

(** Computations in a session: they may raise, and they thread the
    session. *)
Definition M (B : Type) : Type := Session → (exn + B) * Session.

Definition ret {B} (b : B) : M B := λ s, (inr b, s).
Definition raise {B} (e : exn) : M B := λ s, (inl e, s).
Definition bind {B C} (m : M B) (k : B → M C) : M C :=
  λ s, match m s with
       | (inl e, s') => (inl e, s')
       | (inr b, s') => k b s'
       end.
Definition lift {B} (r : exn + B) : M B := λ s, (r, s).

(** One statement.  Its values are converted to the types of the columns
    when the statement is prepared, before anything runs.  An [INSERT]
    then draws the primary key from the sequence and checks the row: when
    the row is rejected the value drawn is spent all the same.  On a
    failure the result is the error with the table and the sequence as
    the statement left them. *)
Definition apply_write (w : write) (st : Store) : option exn * Store :=
  match w with
  | Insert a =>
      match check_values a with
      | Some e => (Some e, st)
      | None =>
          let a' := set_primary_key (next_id st) a in
          match check_constraints a' with
          | Some e => (Some e, mkStore (rows st) (next_id st + 1))
          | None => (None, mkStore (rows st ++ [a']) (next_id st + 1))
          end
      end
  | Update a =>
      match check_values a with
      | Some e => (Some e, st)
      | None =>
          match check_constraints a with
          | Some e => (Some e, st)
          | None =>
              (None,
               mkStore
                 (map (λ r, if decide (primary_key r = primary_key a)
                            then a else r) (rows st))
                 (next_id st))
          end
      end
  end.

Fixpoint apply_writes (ws : list write) (st : Store) : option exn * Store :=
  match ws with
  | [] => (None, st)
  | w :: ws' =>
      match apply_write w st with
      | (Some e, st') => (Some e, st')
      | (None, st') => apply_writes ws' st'
      end
  end.

(** Send the recorded writes to the database. *)
Definition flush : M unit :=
  λ s, match apply_writes (pending s) (db s) with
       | (Some e, st) => (inl e, mkSession st (pending s))
       | (None, st) => (inr tt, mkSession st [])
       end.

(** [DBSession.add(obj)]. *)
Definition add (a : A) : M unit :=
  λ s, (inr tt, mkSession (db s) (pending s ++ [Insert a])).

(** An attribute of a loaded object was assigned: the object is dirty. *)
Definition dirty (a : A) : M unit :=
  λ s, (inr tt, mkSession (db s) (pending s ++ [Update a])).

(** [DBSession.query(cls)]: the session flushes before it queries. *)
Definition query : M (list A) :=
  bind flush (λ _, λ s, (inr (rows (db s)), s)).

(** [Query.one()] and [Query.first()]. *)
Definition one (l : list A) : M A :=
  match l with
  | [] => raise NoResultFound
  | [a] => ret a
  | _ :: _ :: _ => raise MultipleResultsFound
  end.

Definition first (l : list A) : M (option A) := ret (head l).

(** [try: body except psycopg2.Error: return handler], followed by the
    rest of the function, which goes on with what the body produced. *)
Definition try_except_psycopg2 {B C} (body : M B) (handler : M C)
    (rest : B → M C) : M C :=
  λ s, match body s with
       | (inl e, s') => if is_psycopg2_Error e then handler s' else (inl e, s')
       | (inr b, s') => rest b s'
       end.

(** The transaction around one request: commit when the view returns,
    roll back when an exception leaves the view or the commit fails.  A
    rollback gives the table back as it was when the request began; the
    sequence is outside the transaction and keeps the value it reached. *)
Inductive Outcome (R : Type) : Type :=
  | Returned (r : R)
  | Uncaught (e : exn).

Definition rollback (st : Store) (s : Session) : Store :=
  mkStore (rows st) (next_id (db s)).

Definition transaction {R} (view : M R) (st : Store) : Outcome R * Store :=
  match view (mkSession st []) with
  | (inl e, s) => (Uncaught R e, rollback st s)
  | (inr r, s) =>
      match flush s with
      | (inl e, s') => (Uncaught R e, rollback st s')
      | (inr _, s') => (Returned R r, db s')
      end
  end.

End DBSession.

Arguments Store : clear implicits.
Arguments Session : clear implicits.
Arguments write : clear implicits.
Arguments M : clear implicits.
Arguments Returned {R} r.
Arguments Uncaught {R} e.

Notation "x <- m ;; k" := (bind m (λ x, k))
  (at level 100, m at next level, right associativity).
Notation "m ;;; k" := (bind m (λ _, k))
  (at level 100, right associativity).

(** ** The JSON objects built by [json_detail] and [json_edit] *)

Module Dict.
Record t : Type := mk {
  title : option string;
  text : option string;
  created : string;
  id : option Z
}.
End Dict.

(** ** The model class [Entry] *)

Module Entry.

(** An instance of the class.  [id] is [None] until the row is inserted;
    [title] and [text] hold whatever the request carried, [None]
    included. *)
Record t : Type := mk {
  id : option Z;
  title : option string;
  text : option string;
  created : Datetime.t
}.

(** The table [entries]: [id] is the auto-increment primary key, [title]
    is [Unicode(127)], and [title] and [text] are [nullable=False].  A
    title longer than the column is rejected before the null checks. *)
Definition title_fits (s : string) : bool :=
  Nat.leb (String.length s) 127.

(** The conversion of the values to the column types: only a title can
    fail it, by its length. *)
Definition values (e : t) : option exn :=
  match title e with
  | Some s => if title_fits s then None else Some DataError
  | None => None
  end.

Definition constraints (e : t) : option exn :=
  match title e with
  | Some s =>
      if title_fits s then
        match text e with
        | Some _ => None
        | None => Some IntegrityError
        end
      else Some DataError
  | None => Some IntegrityError
  end.

#[global] Instance mapped : Mapped t := {|
  primary_key := id;
  set_primary_key := λ i e, mk (Some i) (title e) (text e) (created e);
  check_values := values;
  check_constraints := constraints
|}.

(** [a] comes no later than [b] under [created DESC]. *)
Definition created_ge (a b : t) : Prop := Datetime.le (created b) (created a).

(** [order_by(cls.created.desc())]: the database returns the rows in some
    order that is descending in [created]; how it places rows with equal
    timestamps is its own business. *)
Class OrderBy : Type := {
  order_by_created_desc : list t → list t;
  order_by_permutation : ∀ l, order_by_created_desc l ≡ₚ l;
  order_by_sorted : ∀ l, StronglySorted created_ge (order_by_created_desc l)
}.

(** The parameter of [cls.id == requested] as the comparison with the
    integer column sees it: [None] makes the comparison [id IS NULL], a
    text is converted to [integer], and the statement fails with
    [DataError] when the text is refused. *)
Definition bind_id `{!Int4} (requested : option string) : exn + option Z :=
  match requested with
  | None => inr None
  | Some s =>
      match int4_in s with
      | Some i => inr (Some i)
      | None => inl DataError
      end
  end.

Section methods.
Context `{!Markdown, !OrderBy, !Int4}.

Definition all : M t (list t) :=
  l <- query ;; ret (order_by_created_desc l).

Definition by_id (requested : option string) : M t t :=
  l <- query ;;
  i <- lift (bind_id requested) ;;
  one (filter (λ e, id e = i) l).

Definition from_request (request : Request) : M t unit :=
  let title := params request !! "title" in
  let text := params request !! "text" in
  let created := utcnow request in
  let new_entry := mk None title text created in
  add new_entry.

Definition desc_new : M t (option t) :=
  l <- query ;; first (order_by_created_desc l).

(** [markdown.markdown(None)] raises. *)
Definition render_markdown (self : t) : exn + string :=
  match text self with
  | Some s => inr (markdown s)
  | None => inl AttributeError
  end.

Definition json_detail (self : t) : exn + Dict.t :=
  match render_markdown self with
  | inl e => inl e
  | inr html =>
      inr (Dict.mk (title self) (Some html)
             (Datetime.strftime_b_d_Y (created self)) (id self))
  end.

Definition json_edit (self : t) : Dict.t :=
  Dict.mk (title self) (text self)
    (Datetime.strftime_b_d_Y (created self)) (id self).

(** Assigns both attributes of the loaded object, which the session
    then holds as dirty; the updated object is returned for the
    caller that keeps using [self]. *)
Definition editing (self : t) (request : Request) : M t t :=
  let self' :=
    mk (id self) (params request !! "title") (params request !! "text")
      (created self) in
  dirty self' ;;; ret self'.

End methods.

End Entry.

(** ** Views *)

(** The headers made by [remember(request, userid)] and by
    [forget(request)]. *)
Inductive Headers : Type :=
  | remember (userid : string)
  | forget.

Inductive Response : Type :=
  | Json (d : Dict.t)
  | NoneResponse
  | HTTPForbidden
  | HTTPInternalServerError
  | HTTPFound (route : string) (headers : Headers)
  | ListPage (entries : list Entry.t)
  | DetailPage (entry : Entry.t)
  | LoginPage (error username : string).

(** What [authenticated = do_login(request)] can hold: [True], [False] or
    [None]. *)
Definition is_true_value (v : option bool) : bool :=
  match v with
  | Some b => b
  | None => false
  end.

Section views.
Context `{!Markdown, !PasswordManager, !Entry.OrderBy, !Int4}.

Definition add_entry (request : Request) : M Entry.t Response :=
  if truthy (authenticated_userid request) then
    match method request with
    | POST =>
        try_except_psycopg2
          (Entry.from_request request)
          (ret HTTPInternalServerError)
          (λ _,
           entry <- Entry.desc_new ;;
           match entry with
           | Some e => d <- lift (Entry.json_detail e) ;; ret (Json d)
           | None => raise AttributeError
           end)
    | _ => ret NoneResponse
    end
  else ret HTTPForbidden.

Definition read_entries (request : Request) : M Entry.t Response :=
  entries <- Entry.all ;; ret (ListPage entries).

Definition detail_entry (request : Request) : M Entry.t Response :=
  entry <- Entry.by_id (Some (matchdict_id request)) ;;
  ret (DetailPage entry).

Definition edit (request : Request) : M Entry.t Response :=
  if truthy (authenticated_userid request) then
    entry <- Entry.by_id (params request !! "id") ;;
    match method request with
    | GET => ret (Json (Entry.json_edit entry))
    | POST =>
        try_except_psycopg2
          (Entry.editing entry request)
          (ret HTTPInternalServerError)
          (λ entry', d <- lift (Entry.json_detail entry') ;; ret (Json d))
    | OTHER => ret NoneResponse
    end
  else ret HTTPForbidden.

Definition do_login (request : Request) : exn + option bool :=
  let username := params request !! "username" in
  let password := params request !! "password" in
  if negb (truthy username && truthy password) then
    inl (ValueError "both username and password are required")
  else
    if decide (username = Some (default "" (settings request !! "auth.username")))
    then
      let hashed := default "" (settings request !! "auth.password") in
      inr (Some (check hashed (default "" password)))
    else inr None.

Definition login (request : Request) : M Entry.t Response :=
  let username := default "" (params request !! "username") in
  match method request with
  | POST =>
      match do_login request with
      | inl (ValueError msg) => ret (LoginPage msg username)
      | inl e => raise e
      | inr authenticated =>
          if is_true_value authenticated
          then ret (HTTPFound "home" (remember username))
          else ret (LoginPage "Login Failed" username)
      end
  | _ => ret (LoginPage "" username)
  end.

Definition logout (request : Request) : M Entry.t Response :=
  ret (HTTPFound "home" forget).

(** One request from start to finish. *)
Definition serve (view : Request → M Entry.t Response) (request : Request)
    (st : Store Entry.t) : Outcome Response * Store Entry.t :=
  transaction (view request) st.

End views.

(** The status line the client sees.  An exception that leaves the view is
    answered by the server with its generic 500 page. *)
Definition http_status (o : Outcome Response) : Z :=
  match o with
  | Returned HTTPForbidden => 403
  | Returned HTTPInternalServerError => 500
  | Returned (HTTPFound _ _) => 302
  | Returned _ => 200
  | Uncaught _ => 500
  end.

(** ** Sample collaborators

    Concrete stand-ins, used to run the model on examples: a renderer that
    wraps its input in a paragraph, a password manager whose hash is the
    password behind a prefix, and a database that orders by a stable
    insertion sort, so that rows with equal timestamps keep their table
    order. *)

Definition sample_markdown : Markdown := λ s, "<p>" +:+ s +:+ "</p>".

Definition sample_manager : PasswordManager :=
  λ hashed password, String.eqb hashed ("$2a$" +:+ password).

(** A reader of integers for the examples: blanks, an optional sign,
    decimal digits, blanks; the value has to fit 32 bits. *)
Definition is_blank (c : Ascii.ascii) : bool :=
  let n := Z.of_nat (Ascii.nat_of_ascii c) in
  (n =? 32) || ((9 <=? n) && (n <=? 13)).

Definition digit_value (c : Ascii.ascii) : option Z :=
  let n := Z.of_nat (Ascii.nat_of_ascii c) in
  if (48 <=? n) && (n <=? 57) then Some (n - 48) else None.

Fixpoint skip_blanks (l : list Ascii.ascii) : list Ascii.ascii :=
  match l with
  | c :: l' => if is_blank c then skip_blanks l' else l
  | [] => []
  end.

Fixpoint read_digits (acc : Z) (l : list Ascii.ascii) : Z * list Ascii.ascii :=
  match l with
  | c :: l' =>
      match digit_value c with
      | Some d => read_digits (acc * 10 + d) l'
      | None => (acc, l)
      end
  | [] => (acc, [])
  end.

Definition read_sign (l : list Ascii.ascii) : bool * list Ascii.ascii :=
  match l with
  | c :: l' =>
      let n := Z.of_nat (Ascii.nat_of_ascii c) in
      if n =? 45 then (true, l')
      else if n =? 43 then (false, l')
      else (false, l)
  | [] => (false, [])
  end.

Definition fits_int4 (z : Z) : bool :=
  (-2147483648 <=? z) && (z <=? 2147483647).

Definition read_int4 (s : string) : option Z :=
  let '(negative, l) := read_sign (skip_blanks (String.list_ascii_of_string s)) in
  match l with
  | c :: _ =>
      match digit_value c with
      | Some _ =>
          let '(v, rest) := read_digits 0 l in
          match skip_blanks rest with
          | [] =>
              let z := if negative then - v else v in
              if fits_int4 z then Some z else None
          | _ :: _ => None
          end
      | None => None
      end
  | [] => None
  end.

Fixpoint insert_desc (e : Entry.t) (l : list Entry.t) : list Entry.t :=
  match l with
  | [] => [e]
  | x :: l' =>
      if Datetime.leb (Entry.created x) (Entry.created e)
      then e :: x :: l'
      else x :: insert_desc e l'
  end.

Definition stable_sort_desc (l : list Entry.t) : list Entry.t :=
  foldr insert_desc [] l.

(** The same sort on the table read backwards: rows with equal
    timestamps come latest row first. *)
Definition latest_first_sort_desc (l : list Entry.t) : list Entry.t :=
  stable_sort_desc (reverse l).

(** ** Vocabulary of the properties *)

(** Every row of a well-formed table has a primary key below the sequence,
    no two rows share one, and every row satisfies the constraints. *)
Definition ids (st : Store Entry.t) : list (option Z) := map Entry.id (rows st).

Definition row_ok (bound : Z) (e : Entry.t) : bool :=
  match Entry.id e with
  | Some i => (i <? bound) && bool_decide (Entry.constraints e = None)
  | None => false
  end.

Definition store_ok (st : Store Entry.t) : Prop :=
  forallb (row_ok (next_id st)) (rows st) = true ∧ NoDup (ids st).

(** The stores the application can be in: the empty table, whose sequence
    starts at 1, and whatever serving a request to one of the views makes
    of a store it can be in. *)
Definition views `{!Markdown, !PasswordManager, !Entry.OrderBy, !Int4} :
    list (Request → M Entry.t Response) :=
  [read_entries; add_entry; detail_entry; edit; login; logout].

Inductive reachable `{!Markdown, !PasswordManager, !Entry.OrderBy, !Int4} :
    Store Entry.t → Prop :=
  | reachable_empty : reachable (mkStore [] 1)
  | reachable_serve view request st :
      reachable st → view ∈ views →
      reachable (snd (serve view request st)).

(** What an edit must not touch. *)
Definition identity_of (e : Entry.t) : option Z * Datetime.t :=
  (Entry.id e, Entry.created e).

(** The row written back by an edit that sets the title and the text. *)
Definition edited (e : Entry.t) (s x : string) : Entry.t :=
  Entry.mk (Entry.id e) (Some s) (Some x) (Entry.created e).

(** A run of requests to the edit view, each in its own transaction. *)
Definition apply_edits `{!Markdown, !Int4} (requests : list Request)
    (st : Store Entry.t) : Store Entry.t :=
  foldl (λ st request, snd (serve edit request st)) st requests.

(** ** Sample data *)

Definition jan_5 : Datetime.t := Datetime.mk 2015 1 5 10 30 0 0.
Definition jan_6 : Datetime.t := Datetime.mk 2015 1 6 9 0 0 0.

Definition sample_settings : gmap string string :=
  {[ "auth.username" := "admin"; "auth.password" := "$2a$secret" ]}.

Definition hello_there : Entry.t :=
  Entry.mk (Some 1) (Some "Hello there") (Some "##This is a post") jan_5.

Definition empty_store : Store Entry.t := mkStore [] 1.
Definition one_entry_store : Store Entry.t := mkStore [hello_there] 2.

Definition second_entry : Entry.t :=
  Entry.mk (Some 2) (Some "Second") (Some "*more*") jan_6.
Definition two_entry_store : Store Entry.t :=
  mkStore [hello_there; second_entry] 3.

Definition post_fields (title text : string) : gmap string string :=
  {[ "title" := title; "text" := text ]}.

(** [POST /add] with a title and a text, with and without an identity. *)
Definition anonymous_add : Request :=
  mkRequest POST (post_fields "Second" "*more*") "" None jan_6
    sample_settings.
Definition admin_add : Request :=
  mkRequest POST (post_fields "Second" "*more*") "" (Some "admin") jan_6
    sample_settings.

(** [POST /add] while the clock reads an earlier time. *)
Definition admin_add_earlier : Request :=
  mkRequest POST (post_fields "Back-dated" "text") "" (Some "admin") jan_5
    sample_settings.

(** [POST /add] without a title. *)
Definition admin_add_untitled : Request :=
  mkRequest POST {[ "text" := "*more*" ]} "" (Some "admin") jan_6
    sample_settings.

(** [GET /detail/i]. *)
Definition get_detail (i : string) : Request :=
  mkRequest GET ∅ i None jan_6 sample_settings.

(** [GET /edit?id=i] and [POST /edit] with [id=i], as the administrator. *)
Definition admin_begin_edit (i : string) : Request :=
  mkRequest GET {[ "id" := i ]} "" (Some "admin") jan_6 sample_settings.
Definition admin_apply_edit (i : string) (title text : string) : Request :=
  mkRequest POST (<[ "id" := i ]> (post_fields title text)) "" (Some "admin")
    jan_6
    sample_settings.

(** [POST /edit] with [id=1] and one of the two fields left out. *)
Definition admin_edit_without_text : Request :=
  mkRequest POST {[ "id" := "1"; "title" := "Hello again" ]} "" (Some "admin")
    jan_6 sample_settings.
Definition admin_edit_without_title : Request :=
  mkRequest POST {[ "id" := "1"; "text" := "*new*" ]} "" (Some "admin")
    jan_6 sample_settings.

(** [POST /login]. *)
Definition login_as (username password : string) : Request :=
  mkRequest POST {[ "username" := username; "password" := password ]}
    "" None jan_6 sample_settings.
Definition login_without_password : Request :=
  mkRequest POST {[ "username" := "admin" ]} "" None jan_6 sample_settings.

(** ** Configuration: the settings built by [main] *)

(** [BCRYPTPasswordManager().encode(password)]. *)
Class PasswordEncoder : Type := encode : string → string.

(** A value of the settings dictionary: the defaults of [reload_all] and
    [debug_all] are the boolean [True], everything read from the
    environment is a string. *)
Inductive setting : Type :=
  | SettingBool (b : bool)
  | SettingStr (s : string).

(** [os.environ.get(key, default)]. *)
Definition environ_get (environ : gmap string string) (key : string)
    (default : setting) : setting :=
  from_option SettingStr default (environ !! key).

(** The dictionary [settings] as [main] fills it before it configures the
    application. *)
Definition main_settings `{!PasswordEncoder} (environ : gmap string string) :
    gmap string setting :=
  let settings := ∅ in
  let settings :=
    <["reload_all" := environ_get environ "DEBUG" (SettingBool true)]> settings in
  let settings :=
    <["debug_all" := environ_get environ "DEBUG" (SettingBool true)]> settings in
  let settings :=
    <["sqlalchemy.url" :=
        environ_get environ "DATABASE_URL"
          (SettingStr "postgresql://jakeanderson:@localhost:5432/learning_journal")]>
      settings in
  let settings :=
    <["auth.username" :=
        environ_get environ "AUTH_USERNAME" (SettingStr "admin")]> settings in
  let settings :=
    <["auth.password" :=
        environ_get environ "AUTH_PASSWORD" (SettingStr (encode "secret"))]>
      settings in
  settings.

(** [request.registry.settings] as the views read it: the string-valued
    settings. *)
Definition registry_settings (settings : gmap string setting) :
    gmap string string :=
  omap (λ v, match v with SettingStr s => Some s | SettingBool _ => None end)
    settings.

Definition sample_encoder : PasswordEncoder := λ password, "$2a$" +:+ password.

(** [POST /login] to an application configured from an empty
    environment. *)
Definition login_with_default_settings (username password : string) : Request :=
  mkRequest POST {[ "username" := username; "password" := password ]}
    "" None (Datetime.mk 2015 1 6 9 0 0 0)
    (registry_settings (@main_settings sample_encoder ∅)).

(** ** Runs of [POST /add] *)

(** A request that [add_entry] serves to the end: an identity, the method
    POST, a title that fits the column and a text. *)
Definition accepted_add (request : Request) : bool :=
  truthy (authenticated_userid request)
  && match method request with POST => true | _ => false end
  && from_option Entry.title_fits false (params request !! "title")
  && bool_decide (is_Some (params request !! "text")).

Definition add_entries `{!Markdown, !Entry.OrderBy} (requests : list Request)
    (st : Store Entry.t) : Store Entry.t :=
  foldl (λ st request, snd (serve add_entry request st)) st requests.

(** The rows that a run of accepted requests appends, the first one under
    the id [i]. *)
Fixpoint appended (i : Z) (requests : list Request) : list Entry.t :=
  match requests with
  | [] => []
  | request :: requests' =>
      Entry.mk (Some i) (params request !! "title") (params request !! "text")
        (utcnow request)
      :: appended (i + 1) requests'
  end.

(** * Properties *)

(** ** The order on datetimes *)

Section datetime_order.
Import Datetime.

Lemma lex_compare_refl l : lex_compare l l = Eq.
Proof. induction l as [|x l IH]; simpl; [done|]. by rewrite Z.compare_refl. Qed.

Lemma lex_compare_antisym l1 : ∀ l2,
  lex_compare l2 l1 = CompOpp (lex_compare l1 l2).
Proof.
  induction l1 as [|x l1 IH]; intros [|y l2]; simpl; try done.
  rewrite (Z.compare_antisym x y).
  destruct (x ?= y); simpl; auto.
Qed.

Lemma lex_compare_eq l1 : ∀ l2, lex_compare l1 l2 = Eq → l1 = l2.
Proof.
  induction l1 as [|x l1 IH]; intros [|y l2]; simpl; try done.
  destruct (Z.compare_spec x y); try done.
  intros ?. f_equal; auto.
Qed.

Lemma lex_compare_lt_trans l1 : ∀ l2 l3,
  lex_compare l1 l2 = Lt → lex_compare l2 l3 = Lt → lex_compare l1 l3 = Lt.
Proof.
  induction l1 as [|x l1 IH]; intros [|y l2] [|z l3]; simpl; try done.
  destruct (Z.compare_spec x y), (Z.compare_spec y z); try done; subst.
  - rewrite Z.compare_refl. apply IH.
  - intros _ _. by destruct (Z.compare_spec y z); try lia.
  - intros _ _. by destruct (Z.compare_spec x z); try lia.
  - intros _ _. by destruct (Z.compare_spec x z); try lia.
Qed.

Lemma dt_fields_inj a b : fields a = fields b → a = b.
Proof. destruct a, b; unfold fields; simpl. by intros [= -> -> -> -> -> -> ->]. Qed.

Lemma dt_compare_eq a b : compare a b = Eq → a = b.
Proof. intros ?. by apply dt_fields_inj, lex_compare_eq. Qed.

Lemma dt_compare_antisym a b : compare b a = CompOpp (compare a b).
Proof. apply lex_compare_antisym. Qed.

Lemma dt_le_refl a : le a a.
Proof. unfold le, leb, compare. by rewrite lex_compare_refl. Qed.

Lemma dt_le_total a b : le a b ∨ le b a.
Proof.
  unfold le, leb. rewrite (dt_compare_antisym a b).
  destruct (compare a b); simpl; auto.
Qed.

Lemma dt_lt_le a b : lt a b → le a b.
Proof. unfold lt, le, ltb, leb. by destruct (compare a b). Qed.

Lemma dt_lt_not_le a b : lt a b → ¬ le b a.
Proof.
  unfold lt, le, ltb, leb. rewrite (dt_compare_antisym a b).
  by destruct (compare a b).
Qed.

Lemma dt_not_le_lt a b : ¬ le a b → lt b a.
Proof.
  unfold lt, le, ltb, leb. rewrite (dt_compare_antisym a b).
  by destruct (compare a b).
Qed.

Lemma dt_le_lt_or_eq a b : le a b → lt a b ∨ a = b.
Proof.
  unfold lt, le, ltb, leb. destruct (compare a b) eqn:E; try done; auto.
  right. by apply dt_compare_eq.
Qed.

Lemma dt_lt_trans a b c : lt a b → lt b c → lt a c.
Proof.
  unfold lt, ltb, compare. intros Hab Hbc.
  destruct (lex_compare (fields a) (fields b)) eqn:E1; try done.
  destruct (lex_compare (fields b) (fields c)) eqn:E2; try done.
  by rewrite (lex_compare_lt_trans _ _ _ E1 E2).
Qed.

Lemma dt_le_trans a b c : le a b → le b c → le a c.
Proof.
  intros [Hab| ->]%dt_le_lt_or_eq [Hbc| ->]%dt_le_lt_or_eq;
    eauto using dt_lt_le, dt_lt_trans, dt_le_refl.
Qed.

Lemma dt_leb_false a b : leb a b = false → lt b a.
Proof. intros E. apply dt_not_le_lt. unfold le. by rewrite E. Qed.

End datetime_order.


(** ** Ordering by [created], newest first *)

Lemma insert_desc_perm e l : insert_desc e l ≡ₚ e :: l.
Proof.
  induction l as [|x l IH]; simpl; [done|].
  destruct (Datetime.leb _ _); [done|].
  rewrite IH. apply Permutation_swap.
Qed.

Lemma insert_desc_sorted e l :
  StronglySorted Entry.created_ge l →
  StronglySorted Entry.created_ge (insert_desc e l).
Proof.
  induction 1 as [|x l Hl IH Hx]; simpl.
  { repeat constructor. }
  destruct (Datetime.leb (Entry.created x) (Entry.created e)) eqn:E.
  - constructor; [by constructor|].
    constructor; [exact E|].
    eapply Forall_impl; [exact Hx|].
    intros y Hy. unfold Entry.created_ge in *. eauto using dt_le_trans.
  - constructor; [exact IH|].
    rewrite insert_desc_perm. constructor; [|exact Hx].
    apply dt_lt_le, dt_leb_false, E.
Qed.

Lemma stable_sort_desc_perm l : stable_sort_desc l ≡ₚ l.
Proof.
  induction l as [|x l IH]; simpl; [done|].
  by rewrite insert_desc_perm, IH.
Qed.

Lemma stable_sort_desc_sorted l :
  StronglySorted Entry.created_ge (stable_sort_desc l).
Proof.
  induction l as [|x l IH]; simpl; [constructor|].
  by apply insert_desc_sorted.
Qed.

(** A database that breaks ties by table order. *)
Definition stable_order : Entry.OrderBy := {|
  Entry.order_by_created_desc := stable_sort_desc;
  Entry.order_by_permutation := stable_sort_desc_perm;
  Entry.order_by_sorted := stable_sort_desc_sorted
|}.

Lemma latest_first_sort_desc_perm l : latest_first_sort_desc l ≡ₚ l.
Proof.
  unfold latest_first_sort_desc.
  by rewrite stable_sort_desc_perm, reverse_Permutation.
Qed.

Lemma latest_first_sort_desc_sorted l :
  StronglySorted Entry.created_ge (latest_first_sort_desc l).
Proof. apply stable_sort_desc_sorted. Qed.

(** A database that breaks ties the other way, latest row first. *)
Definition latest_row_first : Entry.OrderBy := {|
  Entry.order_by_created_desc := latest_first_sort_desc;
  Entry.order_by_permutation := latest_first_sort_desc_perm;
  Entry.order_by_sorted := latest_first_sort_desc_sorted
|}.

(** ** The sample reader of integers *)

Lemma read_int4_range (s : string) (i : Z) :
  read_int4 s = Some i → -2147483648 ≤ i ≤ 2147483647.
Proof.
  unfold read_int4.
  destruct (read_sign _) as [negative l].
  destruct l as [|c l]; [done|].
  destruct (digit_value c); [|done].
  destruct (read_digits 0 (c :: l)) as [v rest].
  destruct (skip_blanks rest); [|done].
  destruct (fits_int4 _) eqn:Hfits; [|done].
  intros [= <-]. unfold fits_int4 in Hfits.
  apply andb_true_iff in Hfits as [?%Z.leb_le ?%Z.leb_le]. lia.
Qed.

Definition sample_int4 : Int4 := {|
  int4_in := read_int4;
  int4_in_range := read_int4_range
|}.

Example read_int4_samples :
  read_int4 "1" = Some 1
  ∧ read_int4 " 42 " = Some 42
  ∧ read_int4 "-7" = Some (-7)
  ∧ read_int4 "2147483647" = Some 2147483647
  ∧ read_int4 "2147483648" = None
  ∧ read_int4 "99999999999999999999" = None
  ∧ read_int4 "abc" = None
  ∧ read_int4 "1.0" = None
  ∧ read_int4 "" = None.
Proof. split_and!; reflexivity. Qed.

(** ** The session on a store with nothing pending *)

Section session_facts.
Context {A : Type} `{!Mapped A}.

Lemma flush_clean (st : Store A) :
  flush (mkSession st []) = (inr tt, mkSession st []).
Proof. reflexivity. Qed.

Lemma query_clean (st : Store A) :
  query (mkSession st []) = (inr (rows st), mkSession st []).
Proof. reflexivity. Qed.

(** A query with one insert pending: the insert is sent first, and the
    query fails when the store refuses its values or rejects the row; in
    the second case the sequence has moved on. *)
Lemma query_insert_refused (st : Store A) (a : A) (e : exn) :
  check_values a = Some e →
  query (mkSession st [Insert a]) = (inl e, mkSession st [Insert a]).
Proof. intros E. unfold query, bind, flush; simpl. by rewrite E. Qed.

Lemma query_insert_rejected (st : Store A) (a : A) (e : exn) :
  check_values a = None →
  check_constraints (set_primary_key (next_id st) a) = Some e →
  query (mkSession st [Insert a])
  = (inl e, mkSession (mkStore (rows st) (next_id st + 1)) [Insert a]).
Proof. intros Ev E. unfold query, bind, flush; simpl. by rewrite Ev, E. Qed.

Lemma query_insert_accepted (st : Store A) (a : A) :
  check_values a = None →
  check_constraints (set_primary_key (next_id st) a) = None →
  let st' := mkStore (rows st ++ [set_primary_key (next_id st) a])
               (next_id st + 1) in
  query (mkSession st [Insert a]) = (inr (rows st'), mkSession st' []).
Proof. intros Ev E. unfold query, bind, flush; simpl. by rewrite Ev, E. Qed.

(** A view that returns without recording a write leaves the store as it
    found it. *)
Lemma transaction_read_only {R} (view : M A R) (st : Store A) (r : R) :
  view (mkSession st []) = (inr r, mkSession st []) →
  transaction view st = (Returned r, st).
Proof. intros E. unfold transaction. by rewrite E. Qed.

(** A view that raises without having moved the sequence leaves the store
    as it found it. *)
Lemma transaction_raise {R} (view : M A R) (st : Store A) e s :
  view (mkSession st []) = (inl e, s) →
  next_id (db s) = next_id st →
  transaction view st = (Uncaught e, st).
Proof.
  intros E Hseq. unfold transaction, rollback. rewrite E, Hseq.
  by destruct st.
Qed.

End session_facts.

(** ** Looking an entry up by its id *)

Lemma filter_id_none (i : option Z) (l : list Entry.t) :
  (∀ e, e ∈ l → Entry.id e ≠ i) → filter (λ e, Entry.id e = i) l = [].
Proof.
  induction l as [|x l IH]; intros Hl; [done|].
  rewrite filter_cons. destruct (decide (Entry.id x = i)) as [E|_].
  - exfalso. eapply Hl; [left|done].
  - apply IH. intros e He. apply Hl. by right.
Qed.

Lemma filter_id_unique (e : Entry.t) (l : list Entry.t) :
  NoDup (map Entry.id l) → e ∈ l →
  filter (λ x, Entry.id x = Entry.id e) l = [e].
Proof.
  induction l as [|x l IH]; simpl; intros Hnd He; [by apply elem_of_nil in He|].
  apply NoDup_cons in Hnd as [Hx Hnd].
  rewrite filter_cons. apply elem_of_cons in He as [->|He].
  - rewrite decide_True by done. f_equal.
    apply filter_id_none. intros y Hy E. apply Hx.
    rewrite <- E. apply list_elem_of_fmap. eauto.
  - rewrite decide_False; [by apply IH|].
    intros E. apply Hx. rewrite E. apply list_elem_of_fmap. eauto.
Qed.

Lemma by_id_clean `{!Int4} (requested : option string) (st : Store Entry.t) :
  Entry.by_id requested (mkSession st [])
  = match Entry.bind_id requested with
    | inl e => (inl e, mkSession st [])
    | inr i => one (filter (λ e, Entry.id e = i) (rows st)) (mkSession st [])
    end.
Proof.
  unfold Entry.by_id, bind. rewrite query_clean. unfold lift.
  by destruct (Entry.bind_id requested).
Qed.

Lemma by_id_refused `{!Int4} (requested : option string) (st : Store Entry.t)
    (e : exn) :
  Entry.bind_id requested = inl e →
  Entry.by_id requested (mkSession st []) = (inl e, mkSession st []).
Proof. intros E. by rewrite by_id_clean, E. Qed.

Lemma by_id_missing `{!Int4} (requested : option string) (i : option Z)
    (st : Store Entry.t) :
  Entry.bind_id requested = inr i →
  (∀ e, e ∈ rows st → Entry.id e ≠ i) →
  Entry.by_id requested (mkSession st []) = (inl NoResultFound, mkSession st []).
Proof.
  intros E Hi. rewrite by_id_clean, E. by rewrite filter_id_none.
Qed.

Lemma by_id_found `{!Int4} (requested : option string) (e : Entry.t)
    (st : Store Entry.t) :
  Entry.bind_id requested = inr (Entry.id e) →
  NoDup (ids st) → e ∈ rows st →
  Entry.by_id requested (mkSession st []) = (inr e, mkSession st []).
Proof.
  intros E Hnd He. rewrite by_id_clean, E. by rewrite filter_id_unique.
Qed.

Lemma bind_id_text `{!Int4} (s : string) (i : Z) :
  int4_in s = Some i → Entry.bind_id (Some s) = inr (Some i).
Proof. intros E. unfold Entry.bind_id. by rewrite E. Qed.

(** ** Privileged views without an identity *)

(** C1. Without an authenticated identity the views behind [/add] and
    [/edit] answer [HTTPForbidden] (status 403) for every method, every
    title, text and id, and the store is left exactly as it was. *)
Theorem privileged_views_forbidden_without_identity
    `{!Markdown, !Entry.OrderBy, !Int4} (request : Request) (st : Store Entry.t) :
  truthy (authenticated_userid request) = false →
  serve add_entry request st = (Returned HTTPForbidden, st)
  ∧ serve edit request st = (Returned HTTPForbidden, st)
  ∧ http_status (Returned HTTPForbidden) = 403.
Proof.
  intros Hanon. unfold serve, add_entry, edit. rewrite Hanon.
  split_and!; reflexivity.
Qed.

(** ** Logging in *)

(** C2. [do_login] raises [ValueError] when the username or the password is
    missing or empty.  Otherwise it returns without raising, and what it
    returns is true exactly when the username is the configured one and the
    password manager accepts the password for the configured hash; with
    another username the value returned is [None], which is false. *)
Theorem do_login_spec `{!PasswordManager} (request : Request) :
  let username := params request !! "username" in
  let password := params request !! "password" in
  let configured := default "" (settings request !! "auth.username") in
  let hashed := default "" (settings request !! "auth.password") in
  (truthy username = false ∨ truthy password = false →
   do_login request
   = inl (ValueError "both username and password are required"))
  ∧ (truthy username = true → truthy password = true →
     ∃ v, do_login request = inr v
          ∧ (is_true_value v = true ↔
             username = Some configured
             ∧ ∃ p, password = Some p ∧ check hashed p = true)
          ∧ (username ≠ Some configured → v = None)).
Proof.
  intros username password configured hashed. unfold do_login.
  fold username password configured hashed. split.
  - intros [-> | ->]; [done|]. by rewrite andb_false_r.
  - intros -> Hp. rewrite Hp. simpl.
    destruct password as [p|] eqn:Ep; [|done].
    destruct (decide (username = Some configured)) as [Hu|Hu].
    + eexists. split_and!; [done| |done]. simpl. split.
      * intros Hc. split; [done|]. by exists p.
      * by intros [_ (p' & [= <-] & Hc)].
    + exists None. split_and!; [done| |done]. simpl. split; [done|].
      by intros [? _].
Qed.

Lemma privileged_views_forbidden_witness :
  truthy (authenticated_userid anonymous_add) = false
  ∧ @serve (@add_entry sample_markdown stable_order) anonymous_add one_entry_store
    = (Returned HTTPForbidden, one_entry_store)
  ∧ @serve (@edit sample_markdown sample_int4) anonymous_add one_entry_store
    = (Returned HTTPForbidden, one_entry_store)
  ∧ http_status (Returned HTTPForbidden) = 403.
Proof.
  split; [reflexivity|].
  apply (@privileged_views_forbidden_without_identity
           sample_markdown stable_order sample_int4 anonymous_add
           one_entry_store).
  reflexivity.
Defined.

Lemma do_login_spec_witness :
  @do_login sample_manager login_without_password
  = inl (ValueError "both username and password are required")
  ∧ ∃ v, @do_login sample_manager (login_as "admin" "secret") = inr v
         ∧ (is_true_value v = true ↔
            Some "admin" = Some "admin"
            ∧ ∃ p, Some "secret" = Some p
                   ∧ @check sample_manager "$2a$secret" p = true)
         ∧ (Some "admin" ≠ Some "admin" → v = None).
Proof.
  split.
  - apply (@do_login_spec sample_manager login_without_password).
    right. reflexivity.
  - apply (@do_login_spec sample_manager (login_as "admin" "secret"));
      reflexivity.
Defined.

(** No exception leaves the login view: a [ValueError] of [do_login] is
    shown on the login page, and the store is not touched. *)
Lemma login_returns `{!PasswordManager} (request : Request) (st : Store Entry.t) :
  ∃ r, serve login request st = (Returned r, st).
Proof.
  unfold serve, login. destruct (method request); [by eexists| |by eexists].
  unfold do_login.
  destruct (negb _); [by eexists|].
  destruct (decide _); [|by eexists].
  simpl. destruct (check _ _); by eexists.
Qed.

Example login_sample :
  @serve (@login sample_manager) (login_as "admin" "secret") empty_store
  = (Returned (HTTPFound "home" (remember "admin")), empty_store)
  ∧ @serve (@login sample_manager) (login_as "admin" "guess") empty_store
    = (Returned (LoginPage "Login Failed" "admin"), empty_store)
  ∧ @serve (@login sample_manager) (login_as "root" "secret") empty_store
    = (Returned (LoginPage "Login Failed" "root"), empty_store)
  ∧ @serve (@login sample_manager) login_without_password empty_store
    = (Returned (LoginPage "both username and password are required" "admin"),
       empty_store).
Proof. split_and!; reflexivity. Qed.

(** ** An id that no entry has *)

(** C5, as the code has it.  When the requested id matches no stored
    entry the lookup of [Entry.by_id] raises and no view catches it:
    [NoResultFound] when the id is missing from the request or is a
    number that no entry has, [DataError] when the text of the id is not
    an integer of the column's type.  The detail view, and with an
    identity the edit view for every method, end in that uncaught
    exception, which the client sees as a status 500 and not as a 404;
    the store is unchanged. *)
Theorem unknown_id_ends_in_uncaught_exception `{!Markdown, !Int4}
    (request : Request) (st : Store Entry.t) :
  (∀ i, int4_in (matchdict_id request) = Some i →
        (∀ e, e ∈ rows st → Entry.id e ≠ Some i) →
        serve detail_entry request st = (Uncaught NoResultFound, st))
  ∧ (int4_in (matchdict_id request) = None →
     serve detail_entry request st = (Uncaught DataError, st))
  ∧ (truthy (authenticated_userid request) = true →
     ∀ i, Entry.bind_id (params request !! "id") = inr i →
          (∀ e, e ∈ rows st → Entry.id e ≠ i) →
          serve edit request st = (Uncaught NoResultFound, st))
  ∧ (truthy (authenticated_userid request) = true →
     ∀ s, params request !! "id" = Some s → int4_in s = None →
          serve edit request st = (Uncaught DataError, st))
  ∧ http_status (Uncaught NoResultFound) = 500
  ∧ http_status (Uncaught DataError) = 500.
Proof.
  split_and!; [| | | |done|done].
  - intros i Hi Hid. unfold serve, detail_entry.
    eapply transaction_raise.
    + unfold bind.
      by rewrite (by_id_missing _ (Some i)) by (done || by apply bind_id_text).
    + done.
  - intros Hi. unfold serve, detail_entry.
    eapply transaction_raise.
    + unfold bind. rewrite (by_id_refused _ _ DataError); [done|].
      unfold Entry.bind_id. by rewrite Hi.
    + done.
  - intros Hauth i Hi Hid. unfold serve, edit. rewrite Hauth.
    eapply transaction_raise.
    + unfold bind. by rewrite (by_id_missing _ i).
    + done.
  - intros Hauth s Hs Hi. unfold serve, edit. rewrite Hauth.
    eapply transaction_raise.
    + unfold bind. rewrite (by_id_refused _ _ DataError); [done|].
      rewrite Hs. unfold Entry.bind_id. by rewrite Hi.
    + done.
Qed.

Lemma unknown_id_ends_in_uncaught_exception_witness :
  serve (@detail_entry sample_int4) (get_detail "7") one_entry_store
  = (Uncaught NoResultFound, one_entry_store)
  ∧ serve (@detail_entry sample_int4) (get_detail "abc") one_entry_store
    = (Uncaught DataError, one_entry_store)
  ∧ @serve (@edit sample_markdown sample_int4) (admin_begin_edit "7")
      one_entry_store
    = (Uncaught NoResultFound, one_entry_store)
  ∧ @serve (@edit sample_markdown sample_int4)
      (admin_apply_edit "99999999999999999999" "t" "x") one_entry_store
    = (Uncaught DataError, one_entry_store).
Proof.
  assert (Hmiss : ∀ e, e ∈ rows one_entry_store → Entry.id e ≠ Some 7).
  { intros e He. apply list_elem_of_singleton in He. by subst e. }
  split_and!.
  - destruct (@unknown_id_ends_in_uncaught_exception sample_markdown
                sample_int4 (get_detail "7") one_entry_store) as (H & _).
    by apply (H 7).
  - destruct (@unknown_id_ends_in_uncaught_exception sample_markdown
                sample_int4 (get_detail "abc") one_entry_store) as (_ & H & _).
    by apply H.
  - destruct (@unknown_id_ends_in_uncaught_exception sample_markdown
                sample_int4 (admin_begin_edit "7") one_entry_store)
      as (_ & _ & H & _).
    by apply (H eq_refl (Some 7)).
  - destruct (@unknown_id_ends_in_uncaught_exception sample_markdown
                sample_int4 (admin_apply_edit "99999999999999999999" "t" "x")
                one_entry_store) as (_ & _ & _ & H & _).
    by apply (H eq_refl "99999999999999999999").
Defined.

(** C5, as the claim states it, fails: [GET /detail/7] on a store whose
    only entry has id 1 ends in an uncaught [NoResultFound], and
    [GET /detail/abc] in an uncaught [DataError]; both are answered with
    status 500 where the claim expects 404, and so are the requests to
    the edit view. *)
Lemma unknown_id_is_not_a_404 :
  fst (serve (@detail_entry sample_int4) (get_detail "7") one_entry_store)
  = Uncaught NoResultFound
  ∧ http_status (fst (serve (@detail_entry sample_int4) (get_detail "7")
                        one_entry_store)) = 500
  ∧ fst (serve (@detail_entry sample_int4) (get_detail "abc") one_entry_store)
    = Uncaught DataError
  ∧ http_status (fst (serve (@detail_entry sample_int4) (get_detail "abc")
                        one_entry_store)) = 500
  ∧ http_status (fst (@serve (@edit sample_markdown sample_int4)
                        (admin_begin_edit "7") one_entry_store)) = 500
  ∧ http_status (fst (@serve (@edit sample_markdown sample_int4)
                        (admin_apply_edit "7" "t" "x") one_entry_store)) = 500
  ∧ (500 ≠ 404).
Proof. split_and!; [reflexivity..|discriminate]. Qed.

(** ** Creating an entry without a title or a text *)






(** ** The public listing *)

(** C7. For every store and every request, with or without an identity,
    [read_entries] returns all the stored entries, ordered by [created]
    from newest to oldest, so that no entry is newer than the first one;
    the store is unchanged. *)
Theorem read_entries_newest_first `{!Entry.OrderBy}
    (request : Request) (st : Store Entry.t) :
  ∃ entries,
    serve read_entries request st = (Returned (ListPage entries), st)
    ∧ entries ≡ₚ rows st
    ∧ StronglySorted Entry.created_ge entries
    ∧ ∀ newest rest, entries = newest :: rest →
        ∀ e, e ∈ rows st →
          Datetime.le (Entry.created e) (Entry.created newest).
Proof.
  exists (Entry.order_by_created_desc (rows st)).
  split_and!.
  - reflexivity.
  - apply Entry.order_by_permutation.
  - apply Entry.order_by_sorted.
  - intros newest rest Hl e He.
    pose proof (Entry.order_by_sorted (rows st)) as Hs.
    rewrite <- (Entry.order_by_permutation (rows st)), Hl in He.
    rewrite Hl in Hs. apply StronglySorted_inv in Hs as [_ Hall].
    apply elem_of_cons in He as [->|He]; [apply dt_le_refl|].
    rewrite Forall_forall in Hall. by apply Hall.
Qed.

Lemma read_entries_newest_first_witness :
  ∃ entries,
    @serve (@read_entries stable_order) (get_detail "0") two_entry_store
    = (Returned (ListPage entries), two_entry_store)
    ∧ entries ≡ₚ [hello_there; second_entry]
    ∧ StronglySorted Entry.created_ge entries
    ∧ ∀ newest rest, entries = newest :: rest →
        ∀ e, e ∈ [hello_there; second_entry] →
          Datetime.le (Entry.created e) (Entry.created newest).
Proof.
  exact (@read_entries_newest_first stable_order (get_detail "0") two_entry_store).
Defined.

(** The listing of the sample store: the later entry comes first although
    it is the second row of the table; on an empty store the listing is
    empty. *)
Example read_entries_sample :
  @serve (@read_entries stable_order) (get_detail "0") two_entry_store
  = (Returned (ListPage [second_entry; hello_there]), two_entry_store)
  ∧ @serve (@read_entries stable_order) (get_detail "0") empty_store
    = (Returned (ListPage []), empty_store).
Proof. split; reflexivity. Qed.

(** ** Well-formed stores *)

Lemma row_ok_inv (bound : Z) (e : Entry.t) :
  row_ok bound e = true →
  ∃ i s x, e = Entry.mk (Some i) (Some s) (Some x) (Entry.created e)
           ∧ i < bound ∧ Entry.title_fits s = true.
Proof.
  unfold row_ok. destruct e as [[i|] ti te c]; simpl; [|done].
  intros [Hi Hc]%andb_true_iff. apply bool_decide_eq_true in Hc.
  unfold Entry.constraints in Hc; simpl in Hc.
  destruct ti as [s|]; [|done].
  destruct (Entry.title_fits s) eqn:Hs; [|done].
  destruct te as [x|]; [|done].
  exists i, s, x. split_and!; [done|lia|done].
Qed.

Lemma store_ok_row (st : Store Entry.t) (e : Entry.t) :
  store_ok st → e ∈ rows st → row_ok (next_id st) e = true.
Proof.
  intros [Hall _] He. rewrite forallb_forall in Hall.
  by apply Hall, list_elem_of_In.
Qed.

Lemma store_ok_fresh (st : Store Entry.t) :
  store_ok st → ∀ e, e ∈ rows st → Entry.id e ≠ Some (next_id st).
Proof.
  intros Hok e He. apply (store_ok_row _ _ Hok), row_ok_inv in He.
  destruct He as (i & s & x & -> & Hi & _). simpl. intros [= ->]. lia.
Qed.

Lemma store_ok_insert (st : Store Entry.t) (s x : string) (c : Datetime.t) :
  store_ok st → Entry.title_fits s = true →
  store_ok (mkStore
              (rows st ++ [Entry.mk (Some (next_id st)) (Some s) (Some x) c])
              (next_id st + 1)).
Proof.
  intros Hok Hs. pose proof (store_ok_fresh _ Hok) as Hfresh.
  destruct Hok as [Hall Hnd]. split; simpl.
  - rewrite forallb_app. apply andb_true_iff. split.
    + rewrite forallb_forall in Hall |- *. intros e He.
      specialize (Hall e He). apply row_ok_inv in Hall.
      destruct Hall as (i & s' & x' & -> & Hi & Hs').
      unfold row_ok, Entry.constraints; simpl. rewrite Hs'.
      apply andb_true_iff. split; [lia|done].
    + simpl. unfold row_ok, Entry.constraints; simpl. rewrite Hs.
      rewrite andb_true_r. apply andb_true_iff. split; [lia|done].
  - unfold ids in *; simpl. rewrite map_app. simpl.
    apply NoDup_app. split_and!; [done| |apply NoDup_singleton].
    intros i Hi ->%list_elem_of_singleton.
    apply list_elem_of_fmap in Hi as (e & Hid & He).
    by apply (Hfresh e He).
Qed.

(** ** The first row under [created DESC] *)

Lemma head_order_by `{!Entry.OrderBy} (l : list Entry.t) :
  l ≠ [] →
  ∃ e, head (Entry.order_by_created_desc l) = Some e
       ∧ e ∈ l
       ∧ ∀ e', e' ∈ l → Datetime.le (Entry.created e') (Entry.created e).
Proof.
  intros Hl.
  pose proof (Entry.order_by_permutation l) as Hp.
  pose proof (Entry.order_by_sorted l) as Hs.
  destruct (Entry.order_by_created_desc l) as [|e l'] eqn:E.
  { symmetry in Hp. by apply Permutation_nil_r in Hp. }
  exists e. split_and!; [done| |].
  - rewrite <- Hp. by left.
  - intros e' He'. rewrite <- Hp in He'.
    apply StronglySorted_inv in Hs as [_ Hall].
    apply elem_of_cons in He' as [->|He']; [apply dt_le_refl|].
    rewrite Forall_forall in Hall. by apply Hall.
Qed.

Lemma head_insert_desc (a new : Entry.t) (l : list Entry.t) :
  head (insert_desc a l) = Some new → a ≠ new →
  head l = Some new ∧ Datetime.lt (Entry.created a) (Entry.created new).
Proof.
  destruct l as [|x l]; simpl.
  { by intros [= ->]. }
  destruct (Datetime.leb (Entry.created x) (Entry.created a)) eqn:E; simpl.
  { by intros [= ->]. }
  intros [= ->] _. split; [done|]. by apply dt_leb_false.
Qed.

(** With ties kept in table order, the row appended last comes first only
    when it is strictly newer than every row before it. *)
Lemma head_stable_sort_last (new : Entry.t) (l : list Entry.t) :
  new ∉ l →
  head (stable_sort_desc (l ++ [new])) = Some new →
  ∀ e, e ∈ l → Datetime.lt (Entry.created e) (Entry.created new).
Proof.
  induction l as [|a l IH]; simpl; intros Hnew Hhead e He.
  { by apply elem_of_nil in He. }
  apply not_elem_of_cons in Hnew as [Hne Hnew].
  apply head_insert_desc in Hhead as [Hhead Ha]; [|done].
  apply elem_of_cons in He as [->|He]; [done|]. by apply IH.
Qed.

(** ** Creating an entry *)

Lemma json_detail_ok `{!Markdown} (i : Z) (s x : string) (c : Datetime.t) :
  Entry.json_detail (Entry.mk (Some i) (Some s) (Some x) c)
  = inr (Dict.mk (Some s) (Some (markdown x)) (Datetime.strftime_b_d_Y c)
           (Some i)).
Proof. reflexivity. Qed.

(** What a successful [POST /add] does: the new row is appended under the
    next id, and the answer is the detail of the first row under
    [created DESC]. *)
Lemma add_entry_succeeds `{!Markdown, !Entry.OrderBy}
    (request : Request) (st : Store Entry.t) (s x : string) :
  store_ok st →
  truthy (authenticated_userid request) = true →
  method request = POST →
  params request !! "title" = Some s →
  params request !! "text" = Some x →
  Entry.title_fits s = true →
  let new := Entry.mk (Some (next_id st)) (Some s) (Some x) (utcnow request) in
  let st' := mkStore (rows st ++ [new]) (next_id st + 1) in
  ∃ e d,
    head (Entry.order_by_created_desc (rows st')) = Some e
    ∧ e ∈ rows st'
    ∧ (∀ e', e' ∈ rows st' →
         Datetime.le (Entry.created e') (Entry.created e))
    ∧ Entry.json_detail e = inr d
    ∧ Dict.id d = Entry.id e
    ∧ serve add_entry request st = (Returned (Json d), st').
Proof.
  intros Hok Hauth Hpost Htitle Htext Hfits new st'.
  destruct (head_order_by (rows st')) as (e & Hhead & He & Hmax).
  { simpl. by destruct (rows st). }
  pose proof (store_ok_insert st s x (utcnow request) Hok Hfits) as Hok'.
  fold new st' in Hok'.
  destruct (row_ok_inv _ _ (store_ok_row _ _ Hok' He)) as (i & s' & x' & Ee & _).
  exists e, (Dict.mk (Some s') (Some (markdown x'))
               (Datetime.strftime_b_d_Y (Entry.created e)) (Some i)).
  split_and!; [done|done|done|by rewrite Ee|by rewrite Ee|].
  unfold serve, add_entry. rewrite Hauth, Hpost.
  unfold transaction, try_except_psycopg2, Entry.from_request, add,
    Entry.desc_new; simpl.
  rewrite Htitle, Htext. unfold bind at 1 2.
  rewrite query_insert_accepted; simpl.
  2:{ unfold Entry.values; simpl. by rewrite Hfits. }
  2:{ unfold Entry.constraints; simpl. by rewrite Hfits. }
  fold new. change (rows st ++ [new]) with (rows st').
  unfold first, ret. rewrite Hhead. unfold bind, lift.
  rewrite Ee at 1. rewrite json_detail_ok. reflexivity.
Qed.

(** ** Viewing and editing an existing entry *)

Lemma detail_entry_found `{!Int4} (request : Request) (st : Store Entry.t)
    (e : Entry.t) (i : Z) :
  NoDup (ids st) → e ∈ rows st → Entry.id e = Some i →
  int4_in (matchdict_id request) = Some i →
  serve detail_entry request st = (Returned (DetailPage e), st).
Proof.
  intros Hnd He Hid Hi. unfold serve, detail_entry.
  apply transaction_read_only. unfold bind.
  rewrite (by_id_found _ e); [done| |done|done].
  rewrite Hid. by apply bind_id_text.
Qed.

Lemma edit_get_succeeds `{!Markdown, !Int4}
    (request : Request) (st : Store Entry.t) (e : Entry.t) :
  NoDup (ids st) → e ∈ rows st →
  Entry.bind_id (params request !! "id") = inr (Entry.id e) →
  truthy (authenticated_userid request) = true →
  method request = GET →
  serve edit request st = (Returned (Json (Entry.json_edit e)), st).
Proof.
  intros Hnd He Hid Hauth Hget. unfold serve, edit. rewrite Hauth.
  apply transaction_read_only. unfold bind.
  by rewrite (by_id_found _ e), Hget.
Qed.

Lemma edit_post_succeeds `{!Markdown, !Int4}
    (request : Request) (st : Store Entry.t) (e : Entry.t) (s x : string) :
  NoDup (ids st) → e ∈ rows st →
  Entry.bind_id (params request !! "id") = inr (Entry.id e) →
  truthy (authenticated_userid request) = true →
  method request = POST →
  params request !! "title" = Some s →
  params request !! "text" = Some x →
  Entry.title_fits s = true →
  serve edit request st
  = (Returned (Json (Dict.mk (Some s) (Some (markdown x))
                       (Datetime.strftime_b_d_Y (Entry.created e))
                       (Entry.id e))),
     mkStore
       (map (λ r, if decide (Entry.id r = Entry.id e) then edited e s x else r)
          (rows st))
       (next_id st)).
Proof.
  intros Hnd He Hid Hauth Hpost Htitle Htext Hfits.
  unfold serve, edit. rewrite Hauth. unfold transaction, bind.
  rewrite (by_id_found _ e), Hpost by done.
  unfold try_except_psycopg2, Entry.editing, dirty, bind, lift, ret; simpl.
  rewrite Htitle, Htext. simpl.
  unfold flush; simpl. unfold Entry.values, Entry.constraints; simpl.
  by rewrite Hfits.
Qed.

(** Whatever the request, the edit view leaves the id and the creation
    time of every row, and the sequence, as they were. *)
Lemma write_back_identity (i : option Z) (e e' : Entry.t) (l : list Entry.t) :
  filter (λ r, Entry.id r = i) l = [e] →
  identity_of e' = identity_of e →
  map identity_of
    (map (λ r, if decide (Entry.id r = Entry.id e) then e' else r) l)
  = map identity_of l.
Proof.
  intros Hfilter He'. rewrite map_map. apply map_ext_in. intros r Hr.
  destruct (decide (Entry.id r = Entry.id e)) as [E|_]; [|done].
  assert (He : e ∈ filter (λ r, Entry.id r = i) l) by (rewrite Hfilter; by left).
  apply list_elem_of_filter in He as [Hei _].
  assert (Hri : r ∈ filter (λ r, Entry.id r = i) l).
  { apply list_elem_of_filter. split; [congruence|by apply list_elem_of_In]. }
  rewrite Hfilter in Hri. apply list_elem_of_singleton in Hri. by subst r.
Qed.

(** ** What one request can do to the store *)

Lemma constraints_none_inv (e : Entry.t) :
  Entry.constraints e = None →
  ∃ s x, Entry.title e = Some s ∧ Entry.text e = Some x
         ∧ Entry.title_fits s = true.
Proof.
  unfold Entry.constraints. destruct (Entry.title e) as [s|]; [|done].
  destruct (Entry.title_fits s) eqn:Hs; [|done].
  destruct (Entry.text e) as [x|]; [|done]. by exists s, x.
Qed.

(** The outcomes of a request to [add_entry], with the store each leaves. *)
Lemma serve_add_entry_inv `{!Markdown, !Entry.OrderBy}
    (request : Request) (st : Store Entry.t) :
  (truthy (authenticated_userid request) = false
   ∧ serve add_entry request st = (Returned HTTPForbidden, st))
  ∨ (truthy (authenticated_userid request) = true
     ∧ method request ≠ POST
     ∧ serve add_entry request st = (Returned NoneResponse, st))
  ∨ (truthy (authenticated_userid request) = true
     ∧ method request = POST
     ∧ ∃ e st', serve add_entry request st = (Uncaught e, st')
                ∧ rows st' = rows st
                ∧ next_id st ≤ next_id st' ≤ next_id st + 1)
  ∨ (truthy (authenticated_userid request) = true
     ∧ method request = POST
     ∧ ∃ s x d,
         params request !! "title" = Some s
         ∧ params request !! "text" = Some x
         ∧ Entry.title_fits s = true
         ∧ serve add_entry request st
           = (Returned (Json d),
              mkStore
                (rows st ++ [Entry.mk (Some (next_id st)) (Some s) (Some x)
                               (utcnow request)])
                (next_id st + 1))).
Proof.
  destruct st as [rws nxt].
  destruct (serve add_entry request (mkStore rws nxt)) as [o st'] eqn:E.
  revert E. unfold serve, add_entry.
  destruct (truthy (authenticated_userid request));
    [|intros [= <- <-]; by left].
  destruct (method request) eqn:Hm;
    [intros [= <- <-]; right; by left| |intros [= <- <-]; right; by left].
  unfold transaction, try_except_psycopg2, Entry.from_request, add,
    Entry.desc_new; simpl.
  unfold bind at 1 2.
  set (a := Entry.mk None (params request !! "title")
              (params request !! "text") (utcnow request)).
  destruct (check_values a) as [e|] eqn:Hv.
  { rewrite (query_insert_refused _ _ e Hv). intros [= <- <-].
    right. right. left. split_and!; [done..|].
    eexists _, _. split; [done|]. simpl. split; [done|lia]. }
  destruct (check_constraints (set_primary_key nxt a)) as [e|] eqn:Hc.
  { rewrite (query_insert_rejected _ _ e Hv Hc). intros [= <- <-].
    right. right. left. split_and!; [done..|].
    eexists _, _. split; [done|]. simpl. split; [done|lia]. }
  rewrite (query_insert_accepted _ _ Hv Hc). simpl.
  unfold first, ret.
  destruct (head _) as [e|]; simpl.
  2:{ intros [= <- <-]. right. right. left. split_and!; [done..|].
      eexists _, _. split; [done|]. simpl. split; [done|lia]. }
  unfold bind, lift.
  destruct (Entry.json_detail e) as [err|d]; simpl; intros [= <- <-].
  { right. right. left. split_and!; [done..|].
    eexists _, _. split; [done|]. simpl. split; [done|lia]. }
  right. right. right.
  apply constraints_none_inv in Hc as (s & x & Hs & Hx & Hfits).
  subst a. simpl in Hs, Hx |- *. split_and!; [done..|].
  exists s, x, d. by rewrite Hs, Hx.
Qed.

(** The same for [edit]. *)
Lemma serve_edit_inv `{!Markdown, !Int4} (request : Request)
    (st : Store Entry.t) :
  (truthy (authenticated_userid request) = false
   ∧ serve edit request st = (Returned HTTPForbidden, st))
  ∨ (truthy (authenticated_userid request) = true
     ∧ ∃ e, serve edit request st = (Uncaught e, st))
  ∨ (truthy (authenticated_userid request) = true
     ∧ method request ≠ POST
     ∧ ∃ r, serve edit request st = (Returned r, st)
            ∧ (r = NoneResponse ∨ ∃ d, r = Json d))
  ∨ (truthy (authenticated_userid request) = true
     ∧ method request = POST
     ∧ ∃ i e s x,
         Entry.bind_id (params request !! "id") = inr i
         ∧ filter (λ r, Entry.id r = i) (rows st) = [e]
         ∧ params request !! "title" = Some s
         ∧ params request !! "text" = Some x
         ∧ Entry.title_fits s = true
         ∧ serve edit request st
           = (Returned (Json (Dict.mk (Some s) (Some (markdown x))
                                (Datetime.strftime_b_d_Y (Entry.created e))
                                (Entry.id e))),
              mkStore
                (map (λ r, if decide (Entry.id r = Entry.id e)
                           then edited e s x else r) (rows st))
                (next_id st))).
Proof.
  destruct st as [rws nxt].
  destruct (serve edit request (mkStore rws nxt)) as [o st'] eqn:E.
  revert E. unfold serve, edit.
  destruct (truthy (authenticated_userid request));
    [|intros [= <- <-]; by left].
  unfold transaction, bind. rewrite by_id_clean.
  destruct (Entry.bind_id (params request !! "id")) as [err|i] eqn:Hbind.
  { intros [= <- <-]. right. left. split; [done|by eexists]. }
  simpl.
  destruct (filter (λ e, Entry.id e = i) rws)
    as [|e [|e2 l]] eqn:Hfilter; simpl;
    [intros [= <- <-]; right; left; split; [done|by eexists]| |
     intros [= <- <-]; right; left; split; [done|by eexists]].
  destruct (method request) eqn:Hm; simpl.
  - intros [= <- <-]. right. right. left. split_and!; [done..|].
    eexists. split; [done|]. right. by eexists.
  - unfold try_except_psycopg2, Entry.editing, dirty, bind, lift, ret; simpl.
    unfold Entry.json_detail, Entry.render_markdown; simpl.
    destruct (params request !! "text") as [x|]; simpl;
      [|intros [= <- <-]; right; left; split; [done|by eexists]].
    unfold flush; simpl. unfold Entry.values, Entry.constraints; simpl.
    destruct (params request !! "title") as [s|]; simpl;
      [|intros [= <- <-]; right; left; split; [done|by eexists]].
    destruct (Entry.title_fits s) eqn:Hfits; simpl;
      intros [= <- <-]; [|right; left; split; [done|by eexists]].
    right. right. right. split_and!; [done..|]. by exists i, e, s, x.
  - intros [= <- <-]. right. right. left. split_and!; [done..|].
    eexists. split; [done|]. by left.
Qed.

Lemma serve_detail_entry_inv `{!Int4} (request : Request) (st : Store Entry.t) :
  (int4_in (matchdict_id request) = None
   ∧ serve detail_entry request st = (Uncaught DataError, st))
  ∨ ∃ i, int4_in (matchdict_id request) = Some i
         ∧ ((∃ e, filter (λ r, Entry.id r = Some i) (rows st) = [e]
                  ∧ serve detail_entry request st
                    = (Returned (DetailPage e), st))
            ∨ (filter (λ r, Entry.id r = Some i) (rows st) = []
               ∧ serve detail_entry request st = (Uncaught NoResultFound, st))
            ∨ ((2 ≤ length (filter (λ r, Entry.id r = Some i) (rows st)))%nat
               ∧ serve detail_entry request st
                 = (Uncaught MultipleResultsFound, st))).
Proof.
  destruct st as [rws nxt].
  unfold serve, detail_entry, transaction, bind. rewrite by_id_clean.
  unfold Entry.bind_id.
  destruct (int4_in (matchdict_id request)) as [i|]; [|by left].
  right. exists i. split; [done|]. simpl.
  destruct (filter _ rws) as [|e [|e2 l]]; simpl.
  - right. by left.
  - left. by exists e.
  - right. right. split; [lia|done].
Qed.

(** What the login view can answer. *)
Lemma serve_login_inv `{!PasswordManager} (request : Request) (st : Store Entry.t) :
  ∃ r, serve login request st = (Returned r, st)
       ∧ ((∃ error, r = LoginPage error
                          (default "" (params request !! "username")))
          ∨ (r = HTTPFound "home"
                   (remember (default "" (params request !! "username")))
             ∧ method request = POST
             ∧ do_login request = inr (Some true))).
Proof.
  unfold serve, login.
  destruct (method request); [by eexists; split; [|left; eexists]| |
                              by eexists; split; [|left; eexists]].
  destruct (do_login request) as [e|[[|]|]] eqn:Hlogin; simpl.
  - revert Hlogin. unfold do_login.
    destruct (negb _); [|by destruct (decide _)].
    intros [= <-]. eexists. split; [done|]. left. by eexists.
  - eexists. split; [done|]. by right.
  - eexists. split; [done|]. left. by eexists.
  - eexists. split; [done|]. left. by eexists.
Qed.

(** Whatever the view, a request either leaves the store alone, or it is
    a POST with an identity: one that the store turns down, after which
    the table is as before and the sequence may have moved on by one, or
    one that appends a row or writes a row back. *)
Lemma serve_view_inv `{!Markdown, !PasswordManager, !Entry.OrderBy, !Int4}
    (view : Request → M Entry.t Response) (request : Request)
    (st : Store Entry.t) :
  view ∈ views →
  (∃ o, serve view request st = (o, st)
        ∧ o ≠ Returned HTTPInternalServerError)
  ∨ (truthy (authenticated_userid request) = true
     ∧ method request = POST
     ∧ ∃ e st', serve view request st = (Uncaught e, st')
                ∧ rows st' = rows st
                ∧ next_id st ≤ next_id st' ≤ next_id st + 1)
  ∨ (truthy (authenticated_userid request) = true
     ∧ method request = POST
     ∧ ∃ s x d,
         Entry.title_fits s = true
         ∧ serve view request st
           = (Returned (Json d),
              mkStore
                (rows st ++ [Entry.mk (Some (next_id st)) (Some s) (Some x)
                               (utcnow request)])
                (next_id st + 1)))
  ∨ (truthy (authenticated_userid request) = true
     ∧ method request = POST
     ∧ ∃ i e s x d,
         filter (λ r, Entry.id r = i) (rows st) = [e]
         ∧ Entry.title_fits s = true
         ∧ serve view request st
           = (Returned (Json d),
              mkStore
                (map (λ r, if decide (Entry.id r = Entry.id e)
                           then edited e s x else r) (rows st))
                (next_id st))).
Proof.
  intros Hview. unfold views in Hview.
  repeat (apply elem_of_cons in Hview as [->|Hview]).
  - left. by eexists.
  - destruct (serve_add_entry_inv request st)
      as [[_ E]|[(_ & _ & E)|[(Ha & Hm & e & st' & E & Hr & Hn)
                             |(Ha & Hm & s & x & d & _ & _ & Hf & E)]]].
    + left. by eexists.
    + left. by eexists.
    + right. left. split_and!; [done..|]. by exists e, st'.
    + right. right. left. split_and!; [done..|]. by exists s, x, d.
  - left.
    destruct (serve_detail_entry_inv request st)
      as [[_ E]|(i & _ & [(e & _ & E)|[[_ E]|[_ E]]])]; by eexists.
  - destruct (serve_edit_inv request st)
      as [[_ E]|[(_ & e & E)|[(_ & _ & r & E & Hr)
                             |(Ha & Hm & i & e & s & x & _ & Hfl & _ & _ & Hf & E)]]].
    + left. by eexists.
    + left. by eexists.
    + left. exists (Returned r). split; [done|].
      by destruct Hr as [->|[d ->]].
    + right. right. right. split_and!; [done..|]. by eexists i, e, s, x, _.
  - left. destruct (serve_login_inv request st) as (r & E & Hr).
    exists (Returned r). split; [done|].
    by destruct Hr as [[error ->]|[-> _]].
  - left. by eexists.
  - by apply elem_of_nil in Hview.
Qed.

Lemma edit_frame `{!Markdown, !Int4} (request : Request) (st : Store Entry.t) :
  map identity_of (rows (snd (serve edit request st)))
  = map identity_of (rows st)
  ∧ next_id (snd (serve edit request st)) = next_id st.
Proof.
  destruct (serve_edit_inv request st)
    as [[_ E]|[(_ & e & E)|[(_ & _ & r & E & _)
                           |(_ & _ & i & e & s & x & _ & Hfl & _ & _ & _ & E)]]];
    rewrite E; simpl; [done..|].
  split; [|done]. by apply (write_back_identity i).
Qed.

(** ** Stores the application can be in *)

Lemma store_ok_write_back (st : Store Entry.t) (i : option Z) (e e' : Entry.t) :
  store_ok st →
  filter (λ r, Entry.id r = i) (rows st) = [e] →
  identity_of e' = identity_of e →
  Entry.constraints e' = None →
  store_ok (mkStore
              (map (λ r, if decide (Entry.id r = Entry.id e) then e' else r)
                 (rows st))
              (next_id st)).
Proof.
  intros Hok Hfilter Hsame Hc.
  assert (He : e ∈ rows st).
  { assert (e ∈ filter (λ r, Entry.id r = i) (rows st)) as Hin
      by (rewrite Hfilter; by left).
    by apply list_elem_of_filter in Hin as [_ ?]. }
  pose proof (store_ok_row _ _ Hok He) as Hrow.
  destruct Hok as [Hall Hnd]. split; simpl.
  - rewrite forallb_forall in Hall |- *. intros r Hr.
    apply in_map_iff in Hr as (r0 & <- & Hr0).
    destruct (decide (Entry.id r0 = Entry.id e)); [|by apply Hall].
    injection Hsame as Hid _. unfold row_ok in *. rewrite Hid.
    destruct (Entry.id e) as [k|]; [|done].
    apply andb_true_iff in Hrow as [Hk _]. rewrite Hk. simpl.
    by apply bool_decide_eq_true.
  - unfold ids in *; simpl.
    pose proof (write_back_identity i e e' (rows st) Hfilter Hsame) as Hmap.
    apply (f_equal (map fst)) in Hmap. rewrite !map_map in Hmap.
    rewrite map_map.
    change (map (λ r, Entry.id (if decide (Entry.id r = Entry.id e)
                                then e' else r)) (rows st)
            = map Entry.id (rows st)) in Hmap.
    by rewrite Hmap.
Qed.

(** A store stays well formed when the sequence moves on. *)
Lemma store_ok_sequence (st st' : Store Entry.t) :
  store_ok st → rows st' = rows st → next_id st ≤ next_id st' →
  store_ok st'.
Proof.
  intros [Hall Hnd] Hrows Hseq. unfold store_ok, ids. rewrite Hrows.
  split; [|done]. rewrite forallb_forall in Hall |- *. intros e He.
  specialize (Hall e He). apply row_ok_inv in Hall.
  destruct Hall as (i & s & x & -> & Hi & Hs).
  unfold row_ok, Entry.constraints; simpl. rewrite Hs.
  apply andb_true_iff. split; [lia|done].
Qed.

(** Every store the application can be in is well formed. *)
Lemma reachable_store_ok `{!Markdown, !PasswordManager, !Entry.OrderBy, !Int4}
    (st : Store Entry.t) :
  reachable st → store_ok st.
Proof.
  induction 1 as [|view request st _ IH Hview].
  { split; [reflexivity|]. apply NoDup_nil. done. }
  destruct (serve_view_inv view request st Hview)
    as [(o & E & _)|[(_ & _ & e & st' & E & Hr & Hn)
       |[(_ & _ & s & x & d & Hf & E)|(_ & _ & i & e & s & x & d & Hfl & Hf & E)]]];
    rewrite E; simpl.
  - done.
  - apply (store_ok_sequence st); [done|done|lia].
  - by apply store_ok_insert.
  - apply (store_ok_write_back st i); [done|done|done|].
    unfold edited, Entry.constraints; simpl. by rewrite Hf.
Qed.

(** C3. With an identity, a title that fits the column and a text,
    [POST /add] stores the entry under the next id; the detail view of
    that id then returns an entry whose title is the submitted title and
    whose rendered text is the markdown rendering of the submitted text. *)
Theorem create_then_view `{!Markdown, !Entry.OrderBy, !Int4}
    (request view_request : Request) (st : Store Entry.t) (s x : string) :
  store_ok st →
  truthy (authenticated_userid request) = true →
  method request = POST →
  params request !! "title" = Some s →
  params request !! "text" = Some x →
  Entry.title_fits s = true →
  int4_in (matchdict_id view_request) = Some (next_id st) →
  ∃ d st' entry,
    serve add_entry request st = (Returned (Json d), st')
    ∧ serve detail_entry view_request st' = (Returned (DetailPage entry), st')
    ∧ Entry.id entry = Some (next_id st)
    ∧ Entry.title entry = Some s
    ∧ Entry.render_markdown entry = inr (markdown x)
    ∧ Entry.json_detail entry
      = inr (Dict.mk (Some s) (Some (markdown x))
               (Datetime.strftime_b_d_Y (utcnow request))
               (Some (next_id st))).
Proof.
  intros Hok Hauth Hpost Htitle Htext Hfits Hview.
  destruct (add_entry_succeeds request st s x Hok Hauth Hpost Htitle Htext Hfits)
    as (e & d & _ & _ & _ & _ & _ & Hserve).
  pose proof (store_ok_insert st s x (utcnow request) Hok Hfits) as [_ Hnd].
  eexists d, _,
    (Entry.mk (Some (next_id st)) (Some s) (Some x) (utcnow request)).
  split; [exact Hserve|].
  split_and!; [|reflexivity..].
  apply (detail_entry_found _ _ _ (next_id st)); [exact Hnd| |done|done].
  simpl. apply elem_of_app. right. by left.
Qed.

Lemma create_then_view_witness :
  ∃ d st' entry,
    @serve (@add_entry sample_markdown stable_order) admin_add one_entry_store
    = (Returned (Json d), st')
    ∧ serve (@detail_entry sample_int4) (get_detail "2") st' = (Returned (DetailPage entry), st')
    ∧ Entry.id entry = Some 2
    ∧ Entry.title entry = Some "Second"
    ∧ @Entry.render_markdown sample_markdown entry = inr "<p>*more*</p>"
    ∧ @Entry.json_detail sample_markdown entry
      = inr (Dict.mk (Some "Second") (Some "<p>*more*</p>") "Jan 06, 2015"
               (Some 2)).
Proof.
  apply (@create_then_view sample_markdown stable_order sample_int4 admin_add
           (get_detail "2") one_entry_store "Second" "*more*").
  - split; [reflexivity|]. apply NoDup_singleton.
  - reflexivity.
  - reflexivity.
  - reflexivity.
  - reflexivity.
  - reflexivity.
  - reflexivity.
Defined.

(** With ties put latest row first, the row appended last comes first as
    soon as no row before it is newer. *)
Lemma head_latest_first_last (new : Entry.t) (l : list Entry.t) :
  (∀ e, e ∈ l → Datetime.le (Entry.created e) (Entry.created new)) →
  head (latest_first_sort_desc (l ++ [new])) = Some new.
Proof.
  intros Hl. unfold latest_first_sort_desc.
  rewrite reverse_app, reverse_singleton. simpl.
  destruct (stable_sort_desc (reverse l)) as [|x l'] eqn:Hsort; [done|].
  simpl. rewrite (Hl x); [done|].
  rewrite <- (reverse_Permutation l), <- (stable_sort_desc_perm (reverse l)).
  rewrite Hsort. by left.
Qed.

(** C10, as the code has it.  A successful [POST /add] answers with the
    detail of an entry of the store that has the greatest [created],
    whichever row that is, and not with the object it has just added.
    The answer describes the new entry whenever the clock reading of the
    request is strictly later than the [created] of every stored entry,
    and never when some stored entry is strictly newer.  When the newest
    stored entry has the very clock reading of the request, the
    database's ordering of equal timestamps decides: there is an ordering
    under which the answer describes the new entry and one under which it
    does not. *)
Theorem add_entry_answers_with_newest `{!Markdown}
    (request : Request) (st : Store Entry.t) (s x : string) :
  store_ok st →
  truthy (authenticated_userid request) = true →
  method request = POST →
  params request !! "title" = Some s →
  params request !! "text" = Some x →
  Entry.title_fits s = true →
  let new := Entry.mk (Some (next_id st)) (Some s) (Some x) (utcnow request) in
  let st' := mkStore (rows st ++ [new]) (next_id st + 1) in
  let answer_new :=
    Returned (Json (Dict.mk (Some s) (Some (markdown x))
                      (Datetime.strftime_b_d_Y (utcnow request))
                      (Some (next_id st)))) in
  (∀ ob : Entry.OrderBy, ∃ e d,
      e ∈ rows st'
      ∧ (∀ e', e' ∈ rows st' →
           Datetime.le (Entry.created e') (Entry.created e))
      ∧ Entry.json_detail e = inr d
      ∧ @serve (@add_entry _ ob) request st = (Returned (Json d), st'))
  ∧ (∀ ob : Entry.OrderBy,
       (∀ e', e' ∈ rows st →
          Datetime.lt (Entry.created e') (utcnow request)) →
       fst (@serve (@add_entry _ ob) request st) = answer_new)
  ∧ (∀ ob : Entry.OrderBy,
       fst (@serve (@add_entry _ ob) request st) = answer_new →
       ∀ e', e' ∈ rows st →
         Datetime.le (Entry.created e') (utcnow request))
  ∧ ((∀ e', e' ∈ rows st →
        Datetime.le (Entry.created e') (utcnow request)) →
     ∃ ob : Entry.OrderBy,
       fst (@serve (@add_entry _ ob) request st) = answer_new)
  ∧ ((∃ e', e' ∈ rows st
            ∧ Datetime.le (utcnow request) (Entry.created e')) →
     ∃ ob : Entry.OrderBy,
       fst (@serve (@add_entry _ ob) request st) ≠ answer_new).
Proof.
  intros Hok Hauth Hpost Htitle Htext Hfits new st' answer_new.
  pose proof (store_ok_fresh _ Hok) as Hfresh.
  assert (Hsucc := λ ob : Entry.OrderBy,
            @add_entry_succeeds _ ob request st s x
              Hok Hauth Hpost Htitle Htext Hfits).
  cbv zeta in Hsucc. fold new st' in Hsucc.
  assert (Hnew : ∀ e d, e ∈ rows st' → Entry.json_detail e = inr d →
                        Dict.id d = Entry.id e →
                        Returned (Json d) = answer_new → e = new).
  { intros e d He Hd Hid [= ->]. simpl in He, Hid.
    apply elem_of_app in He as [He|He].
    - exfalso. by apply (Hfresh e He).
    - by apply list_elem_of_singleton in He. }
  split_and!.
  - intros ob. destruct (Hsucc ob) as (e & d & _ & He & Hmax & Hd & _ & Hserve).
    by exists e, d.
  - intros ob Hlt.
    destruct (Hsucc ob) as (e & d & _ & He & Hmax & Hd & _ & Hserve).
    assert (e = new) as ->.
    { simpl in He. apply elem_of_app in He as [He|He].
      - exfalso. apply (dt_lt_not_le _ _ (Hlt e He)).
        apply (Hmax new). simpl. apply elem_of_app. right. by left.
      - by apply list_elem_of_singleton in He. }
    rewrite Hserve. simpl. unfold new in Hd. rewrite json_detail_ok in Hd.
    by injection Hd as <-.
  - intros ob Hanswer e' He'.
    destruct (Hsucc ob) as (e & d & _ & He & Hmax & Hd & Hid & Hserve).
    rewrite Hserve in Hanswer. simpl in Hanswer.
    rewrite (Hnew e d He Hd Hid Hanswer) in Hmax.
    apply (Hmax e'). simpl. apply elem_of_app. by left.
  - intros Hle. exists latest_row_first.
    destruct (Hsucc latest_row_first)
      as (e & d & Hhead & He & _ & Hd & _ & Hserve).
    simpl in Hhead.
    rewrite (head_latest_first_last new (rows st) Hle) in Hhead.
    injection Hhead as <-.
    rewrite Hserve. simpl. unfold new in Hd. rewrite json_detail_ok in Hd.
    by injection Hd as <-.
  - intros (e' & He' & Hle). exists stable_order. intros Hanswer.
    destruct (Hsucc stable_order)
      as (e & d & Hhead & He & _ & Hd & Hid & Hserve).
    rewrite Hserve in Hanswer. simpl in Hanswer.
    rewrite (Hnew e d He Hd Hid Hanswer) in Hhead.
    apply (dt_lt_not_le (Entry.created e') (utcnow request)); [|done].
    apply (head_stable_sort_last new (rows st)); [|exact Hhead|exact He'].
    intros Hin. by apply (Hfresh new Hin).
Qed.

Lemma add_entry_answers_with_newest_witness :
  (∀ ob : Entry.OrderBy, ∃ e d,
      e ∈ [hello_there; Entry.mk (Some 2) (Some "Second") (Some "*more*") jan_6]
      ∧ (∀ e', e' ∈ [hello_there;
                      Entry.mk (Some 2) (Some "Second") (Some "*more*") jan_6] →
           Datetime.le (Entry.created e') (Entry.created e))
      ∧ @Entry.json_detail sample_markdown e = inr d
      ∧ @serve (@add_entry sample_markdown ob) admin_add one_entry_store
        = (Returned (Json d),
           mkStore
             [hello_there;
              Entry.mk (Some 2) (Some "Second") (Some "*more*") jan_6] 3))
  ∧ (∀ ob : Entry.OrderBy,
       (∀ e', e' ∈ [hello_there] → Datetime.lt (Entry.created e') jan_6) →
       fst (@serve (@add_entry sample_markdown ob) admin_add one_entry_store)
       = Returned (Json (Dict.mk (Some "Second") (Some "<p>*more*</p>")
                           "Jan 06, 2015" (Some 2))))
  ∧ (∀ ob : Entry.OrderBy,
       fst (@serve (@add_entry sample_markdown ob) admin_add one_entry_store)
       = Returned (Json (Dict.mk (Some "Second") (Some "<p>*more*</p>")
                           "Jan 06, 2015" (Some 2))) →
       ∀ e', e' ∈ [hello_there] → Datetime.le (Entry.created e') jan_6)
  ∧ ((∀ e', e' ∈ [hello_there] → Datetime.le (Entry.created e') jan_6) →
     ∃ ob : Entry.OrderBy,
       fst (@serve (@add_entry sample_markdown ob) admin_add one_entry_store)
       = Returned (Json (Dict.mk (Some "Second") (Some "<p>*more*</p>")
                           "Jan 06, 2015" (Some 2))))
  ∧ ((∃ e', e' ∈ [hello_there] ∧ Datetime.le jan_6 (Entry.created e')) →
     ∃ ob : Entry.OrderBy,
       fst (@serve (@add_entry sample_markdown ob) admin_add one_entry_store)
       ≠ Returned (Json (Dict.mk (Some "Second") (Some "<p>*more*</p>")
                           "Jan 06, 2015" (Some 2)))).
Proof.
  apply (@add_entry_answers_with_newest sample_markdown admin_add
           one_entry_store "Second" "*more*").
  - split; [reflexivity|]. apply NoDup_singleton.
  - reflexivity.
  - reflexivity.
  - reflexivity.
  - reflexivity.
  - reflexivity.
Defined.

(** C10, as the claim states it, fails on a tie.  The stored entry was
    created at the very clock reading of the request, so the new entry is
    not strictly newer; yet under a database that puts the latest row
    first among equal timestamps the answer describes the new entry,
    while under one that keeps the table order it describes the stored
    one. *)
Lemma tied_add_can_answer_with_the_new_entry :
  Entry.created hello_there = utcnow admin_add_earlier
  ∧ Datetime.ltb (Entry.created hello_there) (utcnow admin_add_earlier) = false
  ∧ fst (@serve (@add_entry sample_markdown latest_row_first)
           admin_add_earlier one_entry_store)
    = Returned (Json (Dict.mk (Some "Back-dated") (Some "<p>text</p>")
                        "Jan 05, 2015" (Some 2)))
  ∧ fst (@serve (@add_entry sample_markdown stable_order)
           admin_add_earlier one_entry_store)
    = Returned (Json (Dict.mk (Some "Hello there")
                        (Some "<p>##This is a post</p>") "Jan 05, 2015"
                        (Some 1))).
Proof. split_and!; reflexivity. Qed.

(** When the clock reading is not later than a stored [created], the
    answer to [POST /add] describes the stored entry, not the new one. *)
Example add_entry_answers_with_older_entry :
  let behind := mkRequest POST (post_fields "Second" "*more*") ""
                  (Some "admin") jan_5 sample_settings in
  @serve (@add_entry sample_markdown stable_order) behind one_entry_store
  = (Returned (Json (Dict.mk (Some "Hello there")
                       (Some "<p>##This is a post</p>") "Jan 05, 2015"
                       (Some 1))),
     mkStore [hello_there;
              Entry.mk (Some 2) (Some "Second") (Some "*more*") jan_5] 3).
Proof. reflexivity. Qed.

(** ** Editing *)

(** C4. Across any run of requests to the edit view, every stored entry
    keeps its id and its [created]; and an edit that succeeds writes back
    the entry it was asked for with the submitted title and text, all
    other rows and the sequence being left alone. *)
Theorem edits_keep_id_and_created `{!Markdown, !Int4}
    (requests : list Request) (st : Store Entry.t) :
  map identity_of (rows (apply_edits requests st)) = map identity_of (rows st)
  ∧ ∀ (request : Request) (e : Entry.t) (s x : string),
      NoDup (ids st) → e ∈ rows st →
      Entry.bind_id (params request !! "id") = inr (Entry.id e) →
      truthy (authenticated_userid request) = true →
      method request = POST →
      params request !! "title" = Some s →
      params request !! "text" = Some x →
      Entry.title_fits s = true →
      snd (serve edit request st)
      = mkStore
          (map (λ r, if decide (Entry.id r = Entry.id e)
                     then Entry.mk (Entry.id e) (Some s) (Some x)
                            (Entry.created e)
                     else r) (rows st))
          (next_id st).
Proof.
  split.
  - revert st. induction requests as [|request requests IH]; intros st; [done|].
    simpl. rewrite IH. apply edit_frame.
  - intros request e s x Hnd He Hid Hauth Hpost Htitle Htext Hfits.
    by rewrite (edit_post_succeeds request st e s x).
Qed.

Lemma edits_keep_id_and_created_witness :
  map identity_of
    (rows (@apply_edits sample_markdown sample_int4
             [admin_apply_edit "1" "Hello again" "```python"; anonymous_add;
              admin_apply_edit "1" "Third title" "text"]
             one_entry_store))
  = [(Some 1, jan_5)]
  ∧ snd (@serve (@edit sample_markdown sample_int4)
           (admin_apply_edit "1" "Hello again" "```python") one_entry_store)
    = mkStore [Entry.mk (Some 1) (Some "Hello again") (Some "```python") jan_5] 2.
Proof.
  pose proof (@edits_keep_id_and_created sample_markdown sample_int4
                [admin_apply_edit "1" "Hello again" "```python"; anonymous_add;
                 admin_apply_edit "1" "Third title" "text"]
                one_entry_store) as [Hframe Hstep].
  split; [exact Hframe|].
  apply (Hstep (admin_apply_edit "1" "Hello again" "```python") hello_there
           "Hello again" "```python").
  - apply NoDup_singleton.
  - by left.
  - reflexivity.
  - reflexivity.
  - reflexivity.
  - reflexivity.
  - reflexivity.
  - reflexivity.
Defined.

(** ** The two representations *)

(** C8. For an entry of a well-formed store, [json_edit] carries the raw
    text and [json_detail] carries its markdown rendering, and the two
    agree on the id, the title and the formatted date.  The edit view
    answers a GET with the former; the detail view hands out the entry
    itself; a successful POST to the edit view and a successful
    [POST /add] answer with a [json_detail]. *)
Theorem edit_is_raw_detail_is_rendered `{!Markdown, !Entry.OrderBy, !Int4}
    (st : Store Entry.t) (e : Entry.t) :
  store_ok st → e ∈ rows st →
  ∃ (i : Z) (s x : string),
    Entry.id e = Some i
    ∧ Entry.json_edit e
      = Dict.mk (Some s) (Some x)
          (Datetime.strftime_b_d_Y (Entry.created e)) (Some i)
    ∧ Entry.json_detail e
      = inr (Dict.mk (Some s) (Some (markdown x))
               (Datetime.strftime_b_d_Y (Entry.created e)) (Some i))
    ∧ (∀ request,
         truthy (authenticated_userid request) = true →
         method request = GET →
         Entry.bind_id (params request !! "id") = inr (Some i) →
         serve edit request st = (Returned (Json (Entry.json_edit e)), st))
    ∧ (∀ request,
         int4_in (matchdict_id request) = Some i →
         serve detail_entry request st = (Returned (DetailPage e), st))
    ∧ (∀ request s' x',
         truthy (authenticated_userid request) = true →
         method request = POST →
         Entry.bind_id (params request !! "id") = inr (Some i) →
         params request !! "title" = Some s' →
         params request !! "text" = Some x' →
         Entry.title_fits s' = true →
         fst (serve edit request st)
         = Returned (Json (Dict.mk (Some s') (Some (markdown x'))
                             (Datetime.strftime_b_d_Y (Entry.created e))
                             (Some i)))
         ∧ Entry.json_detail (edited e s' x')
           = inr (Dict.mk (Some s') (Some (markdown x'))
                    (Datetime.strftime_b_d_Y (Entry.created e)) (Some i)))
    ∧ (∀ request s' x',
         truthy (authenticated_userid request) = true →
         method request = POST →
         params request !! "title" = Some s' →
         params request !! "text" = Some x' →
         Entry.title_fits s' = true →
         ∃ e' raw d,
           e' ∈ rows (snd (serve add_entry request st))
           ∧ Entry.text e' = Some raw
           ∧ Entry.json_detail e' = inr d
           ∧ Dict.text d = Some (markdown raw)
           ∧ fst (serve add_entry request st) = Returned (Json d)).
Proof.
  intros Hok He.
  destruct (row_ok_inv _ _ (store_ok_row _ _ Hok He)) as (i & s & x & Ee & _).
  assert (Hid : Entry.id e = Some i) by (by rewrite Ee).
  destruct Hok as [Hall Hnd].
  exists i, s, x. split_and!.
  - done.
  - by rewrite Ee.
  - by rewrite Ee.
  - intros request Hauth Hget Hparam.
    apply edit_get_succeeds; [done|done|congruence|done|done].
  - intros request Hparam.
    by apply (detail_entry_found _ _ _ i).
  - intros request s' x' Hauth Hpost Hparam Htitle Htext Hfits.
    rewrite (edit_post_succeeds request st e s' x');
      [|done|done|congruence|done..].
    simpl. rewrite Hid. split; [done|].
    unfold edited. rewrite Hid. apply json_detail_ok.
  - intros request s' x' Hauth Hpost Htitle Htext Hfits.
    destruct (add_entry_succeeds request st s' x' (conj Hall Hnd) Hauth Hpost
                Htitle Htext Hfits)
      as (e' & d & _ & He' & _ & Hd & _ & Hserve).
    pose proof (store_ok_insert st s' x' (utcnow request) (conj Hall Hnd) Hfits)
      as Hok'.
    destruct (row_ok_inv _ _ (store_ok_row _ _ Hok' He'))
      as (i' & s'' & x'' & Ee' & _).
    exists e', x'', d. rewrite Hserve. split_and!; [done|by rewrite Ee'|done| |done].
    rewrite Ee', json_detail_ok in Hd. by injection Hd as <-.
Qed.

Lemma edit_is_raw_detail_is_rendered_witness :
  Entry.json_edit hello_there
  = Dict.mk (Some "Hello there") (Some "##This is a post") "Jan 05, 2015"
      (Some 1)
  ∧ @Entry.json_detail sample_markdown hello_there
    = inr (Dict.mk (Some "Hello there") (Some "<p>##This is a post</p>")
             "Jan 05, 2015" (Some 1))
  ∧ @serve (@edit sample_markdown sample_int4) (admin_begin_edit "1") one_entry_store
    = (Returned (Json (Entry.json_edit hello_there)), one_entry_store)
  ∧ serve (@detail_entry sample_int4) (get_detail "1") one_entry_store
    = (Returned (DetailPage hello_there), one_entry_store)
  ∧ fst (@serve (@edit sample_markdown sample_int4)
           (admin_apply_edit "1" "Hello again" "*new*") one_entry_store)
    = Returned (Json (Dict.mk (Some "Hello again") (Some "<p>*new*</p>")
                        "Jan 05, 2015" (Some 1)))
  ∧ ∃ e' raw d,
      e' ∈ rows (snd (@serve (@add_entry sample_markdown stable_order)
                        admin_add one_entry_store))
      ∧ Entry.text e' = Some raw
      ∧ @Entry.json_detail sample_markdown e' = inr d
      ∧ Dict.text d = Some ("<p>" +:+ raw +:+ "</p>")
      ∧ fst (@serve (@add_entry sample_markdown stable_order)
               admin_add one_entry_store) = Returned (Json d).
Proof.
  destruct (@edit_is_raw_detail_is_rendered sample_markdown stable_order
              sample_int4 one_entry_store hello_there)
    as (i & s & x & Hid & Hedit & Hdetail & Hget & Hview & Hpost & Hadd).
  - split; [reflexivity|]. apply NoDup_singleton.
  - by left.
  - injection Hid as <-. injection Hedit as <- <-.
    split_and!.
    + reflexivity.
    + exact Hdetail.
    + by apply (Hget (admin_begin_edit "1")).
    + by apply (Hview (get_detail "1")).
    + by apply (Hpost (admin_apply_edit "1" "Hello again" "*new*")
                  "Hello again" "*new*").
    + by apply (Hadd admin_add "Second" "*more*").
Defined.

(** * Further properties of the views *)

(** X1. A request that is answered with an error status (400 or above)
    commits nothing, whichever view served it: the rows of the table are
    exactly those before the request.  The sequence of ids never goes
    back and has moved on by at most one, the id that a rejected insert
    has drawn. *)
Theorem failed_requests_leave_the_table
    `{!Markdown, !PasswordManager, !Entry.OrderBy, !Int4}
    (view : Request → M Entry.t Response) (request : Request)
    (st : Store Entry.t) :
  view ∈ views →
  400 ≤ http_status (fst (serve view request st)) →
  rows (snd (serve view request st)) = rows st
  ∧ next_id st ≤ next_id (snd (serve view request st)) ≤ next_id st + 1.
Proof.
  intros Hview Hstatus.
  destruct (serve_view_inv view request st Hview)
    as [(o & E & _)|[(_ & _ & e & st' & E & Hr & Hn)
       |[(_ & _ & s & x & d & _ & E)|(_ & _ & i & e & s & x & d & _ & _ & E)]]];
    rewrite E in Hstatus |- *; simpl in *; [|done|lia|lia].
  split; [done|lia].
Qed.

(** X2. No view ever answers with [HTTPInternalServerError]: the bodies
    guarded by [except psycopg2.Error] only record work in the session and
    cannot raise that error, so both handlers are dead. *)
Theorem internal_server_error_is_never_returned
    `{!Markdown, !PasswordManager, !Entry.OrderBy, !Int4}
    (view : Request → M Entry.t Response) (request : Request)
    (st : Store Entry.t) :
  view ∈ views →
  fst (serve view request st) ≠ Returned HTTPInternalServerError.
Proof.
  intros Hview.
  destruct (serve_view_inv view request st Hview)
    as [(o & E & Ho)|[(_ & _ & e & st' & E & _)
       |[(_ & _ & s & x & d & _ & E)|(_ & _ & i & e & s & x & d & _ & _ & E)]]];
    by rewrite E.
Qed.

(** X3. The store changes only for a POST that carries an identity: a
    request without an identity, or with any other method, leaves it as it
    was, whichever view served it. *)
Theorem writes_need_identity_and_post
    `{!Markdown, !PasswordManager, !Entry.OrderBy, !Int4}
    (view : Request → M Entry.t Response) (request : Request)
    (st : Store Entry.t) :
  view ∈ views →
  truthy (authenticated_userid request) = false ∨ method request ≠ POST →
  snd (serve view request st) = st.
Proof.
  intros Hview Hro.
  destruct (serve_view_inv view request st Hview)
    as [(o & E & _)|[(Ha & Hm & _)|[(Ha & Hm & _)|(Ha & Hm & _)]]].
  - by rewrite E.
  - destruct Hro; congruence.
  - destruct Hro; congruence.
  - destruct Hro; congruence.
Qed.

(** X4. Entries are never removed or reordered and never change id or
    [created]: after any request the (id, created) pairs of the table
    before it are a prefix of those after it, at most one row was added,
    and the id sequence did not go back. *)
Theorem entries_are_never_removed
    `{!Markdown, !PasswordManager, !Entry.OrderBy, !Int4}
    (view : Request → M Entry.t Response) (request : Request)
    (st : Store Entry.t) :
  view ∈ views →
  map identity_of (rows st)
    `prefix_of` map identity_of (rows (snd (serve view request st)))
  ∧ (length (rows (snd (serve view request st))) ≤ S (length (rows st)))%nat
  ∧ next_id st ≤ next_id (snd (serve view request st)).
Proof.
  intros Hview.
  destruct (serve_view_inv view request st Hview)
    as [(o & E & _)|[(_ & _ & e & st' & E & Hr & Hn)
       |[(_ & _ & s & x & d & _ & E)|(_ & _ & i & e & s & x & d & Hf & _ & E)]]];
    rewrite E; simpl.
  - split_and!; [done|lia|lia].
  - rewrite Hr. split_and!; [done|lia|lia].
  - rewrite map_app, length_app. simpl.
    split_and!; [by apply prefix_app_r|lia|lia].
  - rewrite (write_back_identity i e) by done.
    rewrite length_map. split_and!; [done|lia|lia].
Qed.

(** X5. The listing, the detail page, the login and the logout never
    change the store, whatever the request and whatever they answer. *)
Theorem public_views_never_write `{!PasswordManager, !Entry.OrderBy, !Int4}
    (request : Request) (st : Store Entry.t) :
  snd (serve read_entries request st) = st
  ∧ snd (serve detail_entry request st) = st
  ∧ snd (serve login request st) = st
  ∧ snd (serve logout request st) = st.
Proof.
  split_and!; [done| | |done].
  - destruct (serve_detail_entry_inv request st)
      as [[_ E]|(i & _ & [(e & _ & E)|[[_ E]|[_ E]]])]; by rewrite E.
  - destruct (serve_login_inv request st) as (r & E & _). by rewrite E.
Qed.

Lemma failed_requests_leave_the_table_witness :
  http_status (fst (@serve (@add_entry sample_markdown stable_order)
                      admin_add_untitled one_entry_store)) = 500
  ∧ rows (snd (@serve (@add_entry sample_markdown stable_order)
                 admin_add_untitled one_entry_store)) = [hello_there]
  ∧ 2 ≤ next_id (snd (@serve (@add_entry sample_markdown stable_order)
                        admin_add_untitled one_entry_store)) ≤ 3.
Proof.
  split; [reflexivity|].
  apply (@failed_requests_leave_the_table sample_markdown sample_manager
           stable_order sample_int4 add_entry admin_add_untitled
           one_entry_store).
  - right. left.
  - discriminate.
Defined.

Lemma internal_server_error_is_never_returned_witness :
  fst (@serve (@edit sample_markdown sample_int4) (admin_apply_edit "1" "t" "x")
         one_entry_store) ≠ Returned HTTPInternalServerError.
Proof.
  apply (@internal_server_error_is_never_returned sample_markdown
           sample_manager stable_order sample_int4 edit).
  do 3 right. left.
Defined.

Lemma writes_need_identity_and_post_witness :
  snd (@serve (@add_entry sample_markdown stable_order) anonymous_add
         one_entry_store) = one_entry_store
  ∧ snd (@serve (@edit sample_markdown sample_int4) (admin_begin_edit "1") one_entry_store)
    = one_entry_store.
Proof.
  split.
  - apply (@writes_need_identity_and_post sample_markdown sample_manager
             stable_order sample_int4 add_entry anonymous_add one_entry_store).
    + right. left.
    + left. reflexivity.
  - apply (@writes_need_identity_and_post sample_markdown sample_manager
             stable_order sample_int4 edit (admin_begin_edit "1")
             one_entry_store).
    + do 3 right. left.
    + right. discriminate.
Defined.

Lemma entries_are_never_removed_witness :
  [(Some 1, jan_5)]
    `prefix_of` map identity_of
                  (rows (snd (@serve (@add_entry sample_markdown stable_order)
                                admin_add one_entry_store)))
  ∧ (length (rows (snd (@serve (@add_entry sample_markdown stable_order)
                          admin_add one_entry_store))) ≤ 2)%nat
  ∧ 2 ≤ next_id (snd (@serve (@add_entry sample_markdown stable_order)
                        admin_add one_entry_store)).
Proof.
  apply (@entries_are_never_removed sample_markdown sample_manager
           stable_order sample_int4 add_entry admin_add one_entry_store).
  right. left.
Defined.

(** ** Logging in and the configured credentials *)

Lemma truthy_Some (s : string) : truthy (Some s) = true ↔ s ≠ "".
Proof.
  simpl. rewrite negb_true_iff. apply String.eqb_neq.
Qed.

(** X6. The login view never lets an exception out and never touches the
    store.  It redirects exactly when the request is a POST whose username
    is the configured one and is not empty and whose non-empty password the
    password manager accepts for the configured hash; the redirect goes to
    the home route and remembers the configured username.  In every other
    case the login page is shown again. *)
Theorem login_redirects_exactly_on_valid_credentials `{!PasswordManager}
    (request : Request) (st : Store Entry.t) :
  let configured := default "" (settings request !! "auth.username") in
  let hashed := default "" (settings request !! "auth.password") in
  ∃ r, serve login request st = (Returned r, st)
       ∧ ((∃ error username, r = LoginPage error username)
          ∨ r = HTTPFound "home" (remember configured))
       ∧ (r = HTTPFound "home" (remember configured)
          ↔ method request = POST
            ∧ params request !! "username" = Some configured
            ∧ configured ≠ ""
            ∧ ∃ p, params request !! "password" = Some p
                   ∧ p ≠ ""
                   ∧ check hashed p = true).
Proof.
  intros configured hashed. unfold serve, login, do_login.
  fold configured hashed.
  destruct (method request) eqn:Hm; simpl.
  1,3: eexists; split; [done|]; split; [left; by eexists _, _|];
       split; [done|by intros [? _]].
  destruct (params request !! "username") as [u|] eqn:Hu; simpl.
  2:{ eexists. split; [done|]. split; [left; by eexists _, _|].
      split; [done|]. by intros (_ & ? & _). }
  destruct (String.eqb u "") eqn:Hempty; simpl.
  { apply String.eqb_eq in Hempty as ->.
    eexists. split; [done|]. split; [left; by eexists _, _|].
    split; [done|]. intros (_ & [= Hc] & Hne & _). by rewrite <- Hc in Hne. }
  apply String.eqb_neq in Hempty.
  destruct (params request !! "password") as [p|] eqn:Hp; simpl.
  2:{ eexists. split; [done|]. split; [left; by eexists _, _|].
      split; [done|]. by intros (_ & _ & _ & ? & ? & _). }
  destruct (String.eqb p "") eqn:Hpe; simpl.
  { apply String.eqb_eq in Hpe as ->.
    eexists. split; [done|]. split; [left; by eexists _, _|].
    split; [done|]. by intros (_ & _ & _ & ? & [= <-] & ? & _). }
  apply String.eqb_neq in Hpe.
  destruct (decide (Some u = Some configured)) as [[= ->]|Hne]; simpl.
  - destruct (check hashed p) eqn:Hcheck; simpl.
    + eexists. split; [done|]. split; [by right|].
      split; [|done]. intros _. split_and!; [done..|]. by exists p.
    + eexists. split; [done|]. split; [left; by eexists _, _|].
      split; [done|]. intros (_ & _ & _ & p' & [= <-] & _ & Hc). congruence.
  - eexists. split; [done|]. split; [left; by eexists _, _|].
    split; [done|]. by intros (_ & ? & _).
Qed.

Lemma login_redirects_exactly_on_valid_credentials_witness :
  ∃ r, @serve (@login sample_manager) (login_as "admin" "secret") empty_store
       = (Returned r, empty_store)
       ∧ ((∃ error username, r = LoginPage error username)
          ∨ r = HTTPFound "home" (remember "admin"))
       ∧ (r = HTTPFound "home" (remember "admin")
          ↔ POST = POST
            ∧ Some "admin" = Some "admin"
            ∧ "admin" ≠ ""
            ∧ ∃ p, Some "secret" = Some p
                   ∧ p ≠ ""
                   ∧ @check sample_manager "$2a$secret" p = true).
Proof.
  exact (@login_redirects_exactly_on_valid_credentials sample_manager
           (login_as "admin" "secret") empty_store).
Defined.

Lemma main_settings_lookup `{!PasswordEncoder} (environ : gmap string string) :
  registry_settings (main_settings environ) !! "auth.username"
  = Some (default "admin" (environ !! "AUTH_USERNAME"))
  ∧ registry_settings (main_settings environ) !! "auth.password"
    = Some (default (encode "secret") (environ !! "AUTH_PASSWORD")).
Proof.
  unfold registry_settings, main_settings. rewrite !lookup_omap. split.
  - rewrite lookup_insert_ne, lookup_insert_eq by done.
    unfold environ_get. by destruct (environ !! "AUTH_USERNAME").
  - rewrite lookup_insert_eq.
    unfold environ_get. by destruct (environ !! "AUTH_PASSWORD").
Qed.

(** X7. Under the settings that [main] builds, the credentials are always
    configured: the username is [AUTH_USERNAME] of the environment, or
    [admin] when it is not set, and the hash is [AUTH_PASSWORD], or the
    encoding of [secret].  So [do_login] with a non-empty username and
    password answers with the password manager's verdict on that hash
    when the username is that one, and with [None] otherwise; the empty
    fallbacks of [settings.get] are never used. *)
Theorem main_settings_configure_the_credentials
    `{!PasswordManager, !PasswordEncoder}
    (environ : gmap string string) (request : Request) (u p : string) :
  settings request = registry_settings (main_settings environ) →
  params request !! "username" = Some u →
  params request !! "password" = Some p →
  u ≠ "" → p ≠ "" →
  let configured := default "admin" (environ !! "AUTH_USERNAME") in
  let hashed := default (encode "secret") (environ !! "AUTH_PASSWORD") in
  settings request !! "auth.username" = Some configured
  ∧ settings request !! "auth.password" = Some hashed
  ∧ do_login request
    = inr (if decide (u = configured) then Some (check hashed p) else None).
Proof.
  intros Hsettings Hu Hp Hune Hpne configured hashed.
  destruct (main_settings_lookup environ) as [Hname Hhash].
  rewrite <- Hsettings in Hname, Hhash. fold configured in Hname.
  fold hashed in Hhash. split_and!; [done..|].
  unfold do_login. rewrite Hu, Hp, Hname, Hhash.
  apply truthy_Some in Hune, Hpne. rewrite Hune, Hpne. simpl.
  destruct (decide (u = configured)) as [->|Hne].
  - by rewrite decide_True.
  - rewrite decide_False; [done|]. by intros [= ?].
Qed.

(** With nothing in the environment, [admin] with the password [secret]
    logs in, and a wrong password or another username does not. *)
Lemma main_settings_configure_the_credentials_witness :
  @do_login sample_manager (login_with_default_settings "admin" "secret")
  = inr (Some true)
  ∧ @do_login sample_manager (login_with_default_settings "admin" "guess")
    = inr (Some false)
  ∧ @do_login sample_manager (login_with_default_settings "root" "secret")
    = inr None.
Proof.
  split_and!.
  - refine (proj2 (proj2
             (@main_settings_configure_the_credentials sample_manager
                sample_encoder ∅ (login_with_default_settings "admin" "secret")
                "admin" "secret" _ _ _ _ _))); done.
  - refine (proj2 (proj2
             (@main_settings_configure_the_credentials sample_manager
                sample_encoder ∅ (login_with_default_settings "admin" "guess")
                "admin" "guess" _ _ _ _ _))); done.
  - refine (proj2 (proj2
             (@main_settings_configure_the_credentials sample_manager
                sample_encoder ∅ (login_with_default_settings "root" "secret")
                "root" "secret" _ _ _ _ _))); done.
Defined.

(** ** Invariants of the stores the application can be in *)

Lemma reachable_ids_positive
    `{!Markdown, !PasswordManager, !Entry.OrderBy, !Int4} (st : Store Entry.t) :
  reachable st →
  1 ≤ next_id st
  ∧ ∀ e i, e ∈ rows st → Entry.id e = Some i → 1 ≤ i.
Proof.
  induction 1 as [|view request st _ [IHn IHr] Hview].
  { split; [done|]. intros e i He. by apply elem_of_nil in He. }
  destruct (serve_view_inv view request st Hview)
    as [(o & E & _)|[(_ & _ & e1 & st' & E & Hr & Hn)
       |[(_ & _ & s & x & d & _ & E)|(_ & _ & k & e0 & s & x & d & Hf & _ & E)]]];
    rewrite E; simpl.
  - done.
  - rewrite Hr. split; [lia|done].
  - split; [lia|]. intros e i [He|He]%elem_of_app Hid; [by eapply IHr|].
    apply list_elem_of_singleton in He. subst e. simpl in Hid.
    injection Hid as <-. done.
  - split; [done|]. intros e i He Hid.
    apply list_elem_of_fmap in He as (r & -> & Hr).
    destruct (decide (Entry.id r = Entry.id e0)) as [Hr0|_]; [|by eapply IHr].
    simpl in Hid. apply (IHr r i Hr). by rewrite Hr0.
Qed.

(** X8. In every store that the application can reach from the empty
    table, the ids are pairwise distinct, positive and below the next
    value of the sequence, and every entry has a title that fits the
    column and a text: no request, failed or not, leaves a partial row. *)
Theorem reachable_stores_are_well_formed
    `{!Markdown, !PasswordManager, !Entry.OrderBy, !Int4} (st : Store Entry.t) :
  reachable st →
  NoDup (ids st)
  ∧ ∀ e, e ∈ rows st →
      ∃ i s x, e = Entry.mk (Some i) (Some s) (Some x) (Entry.created e)
               ∧ 1 ≤ i < next_id st
               ∧ Entry.title_fits s = true.
Proof.
  intros Hreach.
  pose proof (reachable_store_ok st Hreach) as Hok.
  destruct (reachable_ids_positive st Hreach) as [_ Hpos].
  split; [by destruct Hok|]. intros e He.
  destruct (row_ok_inv _ _ (store_ok_row _ _ Hok He)) as (i & s & x & Ee & Hi & Hs).
  exists i, s, x. split_and!; [done| |done|done].
  apply (Hpos e i He). by rewrite Ee.
Qed.

Lemma reachable_stores_are_well_formed_witness :
  NoDup (ids (snd (@serve (@add_entry sample_markdown stable_order)
                     admin_add empty_store)))
  ∧ ∀ e, e ∈ rows (snd (@serve (@add_entry sample_markdown stable_order)
                          admin_add empty_store)) →
      ∃ i s x, e = Entry.mk (Some i) (Some s) (Some x) (Entry.created e)
               ∧ 1 ≤ i < 2
               ∧ Entry.title_fits s = true.
Proof.
  apply (@reachable_stores_are_well_formed sample_markdown sample_manager
           stable_order sample_int4).
  apply (@reachable_serve sample_markdown sample_manager stable_order
           sample_int4 add_entry admin_add empty_store).
  - apply reachable_empty.
  - right. left.
Defined.

(** ** Runs of accepted [POST /add] requests *)

Lemma accepted_add_inv (request : Request) :
  accepted_add request = true →
  truthy (authenticated_userid request) = true
  ∧ method request = POST
  ∧ ∃ s x, params request !! "title" = Some s
           ∧ params request !! "text" = Some x
           ∧ Entry.title_fits s = true.
Proof.
  unfold accepted_add.
  intros [[[Ha Hm]%andb_true_iff Ht]%andb_true_iff Hx]%andb_true_iff.
  apply bool_decide_eq_true in Hx as [x Hx].
  destruct (params request !! "title") as [s|] eqn:Hs; [|done].
  destruct (method request); try done.
  split_and!; [done..|]. by exists s, x.
Qed.

(** X9. A run of accepted [POST /add] requests on a well-formed store
    appends one row per request, in the order of the requests, with
    consecutive ids that start at the next value of the sequence and with
    the title, text and clock reading of each request, whatever those
    clock readings are and however the database orders equal timestamps. *)
Theorem accepted_adds_append_in_order `{!Markdown, !Entry.OrderBy}
    (requests : list Request) (st : Store Entry.t) :
  store_ok st →
  Forall (λ request, accepted_add request = true) requests →
  add_entries requests st
  = mkStore (rows st ++ appended (next_id st) requests)
      (next_id st + Z.of_nat (length requests)).
Proof.
  revert st. induction requests as [|request requests IH]; intros st Hok Hall.
  { simpl. rewrite app_nil_r, Z.add_0_r. by destruct st. }
  apply Forall_cons in Hall as [Hreq Hall].
  destruct (accepted_add_inv request Hreq) as (Ha & Hm & s & x & Hs & Hx & Hfits).
  destruct (add_entry_succeeds request st s x Hok Ha Hm Hs Hx Hfits)
    as (e & d & _ & _ & _ & _ & _ & Hserve).
  simpl. rewrite Hserve. simpl.
  rewrite IH; [|by apply store_ok_insert|done]. simpl.
  rewrite Hs, Hx, <- app_assoc. simpl. f_equal. lia.
Qed.

Lemma accepted_adds_append_in_order_witness :
  @add_entries sample_markdown stable_order
    [admin_add; admin_add_earlier] empty_store
  = mkStore
      [Entry.mk (Some 1) (Some "Second") (Some "*more*") jan_6;
       Entry.mk (Some 2) (Some "Back-dated") (Some "text") jan_5]
      3.
Proof.
  apply (@accepted_adds_append_in_order sample_markdown stable_order
           [admin_add; admin_add_earlier] empty_store).
  - split; [reflexivity|]. apply NoDup_nil_2.
  - repeat constructor.
Defined.

(** ** Editing, read back *)

Lemma write_back_ids (e e' : Entry.t) (l : list Entry.t) :
  Entry.id e' = Entry.id e →
  map Entry.id (map (λ r, if decide (Entry.id r = Entry.id e) then e' else r) l)
  = map Entry.id l.
Proof.
  intros Hid. rewrite map_map. apply map_ext. intros r.
  destruct (decide (Entry.id r = Entry.id e)); congruence.
Qed.

Lemma write_back_elem (e e' : Entry.t) (l : list Entry.t) :
  e ∈ l →
  e' ∈ map (λ r, if decide (Entry.id r = Entry.id e) then e' else r) l.
Proof.
  intros He. apply list_elem_of_fmap. exists e. by rewrite decide_True.
Qed.

(** Writing a row back over itself changes nothing. *)
Lemma write_back_same (e : Entry.t) (l : list Entry.t) :
  NoDup (map Entry.id l) → e ∈ l →
  map (λ r, if decide (Entry.id r = Entry.id e) then e else r) l = l.
Proof.
  intros Hnd He. rewrite <- (map_id l) at 2. apply map_ext_in. intros r Hr.
  destruct (decide (Entry.id r = Entry.id e)) as [E|_]; [|done].
  assert (r ∈ filter (λ y, Entry.id y = Entry.id e) l) as Hin.
  { apply list_elem_of_filter. split; [done|by apply list_elem_of_In]. }
  rewrite (filter_id_unique e l Hnd He) in Hin.
  by apply list_elem_of_singleton in Hin.
Qed.

(** X10. After a successful POST to the edit view, the edit view read with
    GET returns the submitted title and text unrendered, and the detail
    view returns the entry with the submitted title and text, both with
    the id and the [created] that the entry had before. *)
Theorem edit_then_read_back `{!Markdown, !Int4}
    (st : Store Entry.t) (e : Entry.t) (i : Z) (s x : string)
    (post get view_request : Request) :
  NoDup (ids st) → e ∈ rows st → Entry.id e = Some i →
  truthy (authenticated_userid post) = true →
  method post = POST →
  Entry.bind_id (params post !! "id") = inr (Some i) →
  params post !! "title" = Some s →
  params post !! "text" = Some x →
  Entry.title_fits s = true →
  truthy (authenticated_userid get) = true →
  method get = GET →
  Entry.bind_id (params get !! "id") = inr (Some i) →
  int4_in (matchdict_id view_request) = Some i →
  serve edit get (snd (serve edit post st))
  = (Returned (Json (Dict.mk (Some s) (Some x)
                       (Datetime.strftime_b_d_Y (Entry.created e)) (Some i))),
     snd (serve edit post st))
  ∧ serve detail_entry view_request (snd (serve edit post st))
    = (Returned (DetailPage (Entry.mk (Some i) (Some s) (Some x)
                               (Entry.created e))),
       snd (serve edit post st)).
Proof.
  intros Hnd He Hid Hauth Hpost Hpid Htitle Htext Hfits Hauth' Hget Hgid Hview.
  rewrite (edit_post_succeeds post st e s x) by (done || congruence). simpl.
  set (st' := mkStore _ _).
  assert (Hnd' : NoDup (ids st')).
  { unfold ids, st'; simpl. by rewrite write_back_ids. }
  assert (He' : edited e s x ∈ rows st') by apply write_back_elem, He.
  unfold edited in He'. rewrite Hid in He'.
  split.
  - by rewrite (edit_get_succeeds get st' _ Hnd' He').
  - by apply (detail_entry_found _ _ _ i).
Qed.

Lemma edit_then_read_back_witness :
  @serve (@edit sample_markdown sample_int4) (admin_begin_edit "1")
    (snd (@serve (@edit sample_markdown sample_int4)
            (admin_apply_edit "1" "Hello again" "*new*") one_entry_store))
  = (Returned (Json (Dict.mk (Some "Hello again") (Some "*new*")
                       "Jan 05, 2015" (Some 1))),
     mkStore [Entry.mk (Some 1) (Some "Hello again") (Some "*new*") jan_5] 2)
  ∧ serve (@detail_entry sample_int4) (get_detail "1")
      (snd (@serve (@edit sample_markdown sample_int4)
              (admin_apply_edit "1" "Hello again" "*new*") one_entry_store))
    = (Returned (DetailPage (Entry.mk (Some 1) (Some "Hello again")
                               (Some "*new*") jan_5)),
       mkStore [Entry.mk (Some 1) (Some "Hello again") (Some "*new*") jan_5] 2).
Proof.
  apply (@edit_then_read_back sample_markdown sample_int4 one_entry_store
           hello_there 1
           "Hello again" "*new*" (admin_apply_edit "1" "Hello again" "*new*")
           (admin_begin_edit "1") (get_detail "1"));
    try reflexivity.
  - apply NoDup_singleton.
  - by left.
Defined.

(** X11. Of two successful edits of the same entry the later one wins:
    the store after both is the store after the later one alone.  In
    particular an edit applied twice is the edit applied once. *)
Theorem last_edit_wins `{!Markdown, !Int4}
    (st : Store Entry.t) (e : Entry.t) (s1 x1 s2 x2 : string)
    (first_edit second_edit : Request) :
  NoDup (ids st) → e ∈ rows st →
  Entry.bind_id (params first_edit !! "id") = inr (Entry.id e) →
  Entry.bind_id (params second_edit !! "id") = inr (Entry.id e) →
  truthy (authenticated_userid first_edit) = true →
  truthy (authenticated_userid second_edit) = true →
  method first_edit = POST → method second_edit = POST →
  params first_edit !! "title" = Some s1 →
  params first_edit !! "text" = Some x1 →
  Entry.title_fits s1 = true →
  params second_edit !! "title" = Some s2 →
  params second_edit !! "text" = Some x2 →
  Entry.title_fits s2 = true →
  serve edit second_edit (snd (serve edit first_edit st))
  = serve edit second_edit st.
Proof.
  intros Hnd He Hid1 Hid2 Ha1 Ha2 Hm1 Hm2 Hs1 Hx1 Hf1 Hs2 Hx2 Hf2.
  rewrite (edit_post_succeeds first_edit st e s1 x1) by done. simpl.
  set (st' := mkStore _ _).
  assert (Hnd' : NoDup (ids st')).
  { unfold ids, st'; simpl. by rewrite write_back_ids. }
  assert (He' : edited e s1 x1 ∈ rows st') by apply write_back_elem, He.
  rewrite (edit_post_succeeds second_edit st' (edited e s1 x1) s2 x2) by done.
  rewrite (edit_post_succeeds second_edit st e s2 x2) by done.
  simpl. f_equal. f_equal. rewrite map_map. apply map_ext. intros r.
  destruct (decide (Entry.id r = Entry.id e)) as [E|E].
  - by rewrite decide_True.
  - by rewrite decide_False.
Qed.

Lemma last_edit_wins_witness :
  @serve (@edit sample_markdown sample_int4) (admin_apply_edit "1" "Third title" "text")
    (snd (@serve (@edit sample_markdown sample_int4)
            (admin_apply_edit "1" "Hello again" "*new*") one_entry_store))
  = @serve (@edit sample_markdown sample_int4) (admin_apply_edit "1" "Third title" "text")
      one_entry_store.
Proof.
  apply (@last_edit_wins sample_markdown sample_int4 one_entry_store
           hello_there
           "Hello again" "*new*" "Third title" "text");
    try reflexivity.
  - apply NoDup_singleton.
  - by left.
Defined.

(** X12. Successful edits of two different entries commute: the store
    after both does not depend on which came first. *)
Theorem edits_of_different_entries_commute `{!Markdown, !Int4}
    (st : Store Entry.t) (e1 e2 : Entry.t) (s1 x1 s2 x2 : string)
    (edit1 edit2 : Request) :
  NoDup (ids st) → e1 ∈ rows st → e2 ∈ rows st →
  Entry.id e1 ≠ Entry.id e2 →
  Entry.bind_id (params edit1 !! "id") = inr (Entry.id e1) →
  Entry.bind_id (params edit2 !! "id") = inr (Entry.id e2) →
  truthy (authenticated_userid edit1) = true →
  truthy (authenticated_userid edit2) = true →
  method edit1 = POST → method edit2 = POST →
  params edit1 !! "title" = Some s1 →
  params edit1 !! "text" = Some x1 →
  Entry.title_fits s1 = true →
  params edit2 !! "title" = Some s2 →
  params edit2 !! "text" = Some x2 →
  Entry.title_fits s2 = true →
  snd (serve edit edit2 (snd (serve edit edit1 st)))
  = snd (serve edit edit1 (snd (serve edit edit2 st))).
Proof.
  intros Hnd He1 He2 Hne Hid1 Hid2 Ha1 Ha2 Hm1 Hm2 Hs1 Hx1 Hf1 Hs2 Hx2 Hf2.
  rewrite (edit_post_succeeds edit1 st e1 s1 x1) by done.
  rewrite (edit_post_succeeds edit2 st e2 s2 x2) by done. simpl.
  set (st1 := mkStore _ _). set (st2 := mkStore _ _).
  assert (Hnd1 : NoDup (ids st1)).
  { unfold ids, st1; simpl. by rewrite write_back_ids. }
  assert (Hnd2 : NoDup (ids st2)).
  { unfold ids, st2; simpl. by rewrite write_back_ids. }
  assert (He21 : e2 ∈ rows st1).
  { unfold st1; simpl. apply list_elem_of_fmap. exists e2.
    split; [|done]. rewrite decide_False; [done|congruence]. }
  assert (He12 : e1 ∈ rows st2).
  { unfold st2; simpl. apply list_elem_of_fmap. exists e1.
    split; [|done]. by rewrite decide_False. }
  rewrite (edit_post_succeeds edit2 st1 e2 s2 x2) by done.
  rewrite (edit_post_succeeds edit1 st2 e1 s1 x1) by done.
  simpl. f_equal. rewrite !map_map. apply map_ext. intros r. simpl.
  repeat case_decide; simpl in *; congruence.
Qed.

Lemma edits_of_different_entries_commute_witness :
  snd (@serve (@edit sample_markdown sample_int4) (admin_apply_edit "2" "Two" "b")
         (snd (@serve (@edit sample_markdown sample_int4) (admin_apply_edit "1" "One" "a")
                 two_entry_store)))
  = snd (@serve (@edit sample_markdown sample_int4) (admin_apply_edit "1" "One" "a")
           (snd (@serve (@edit sample_markdown sample_int4) (admin_apply_edit "2" "Two" "b")
                   two_entry_store))).
Proof.
  apply (@edits_of_different_entries_commute sample_markdown sample_int4
           two_entry_store
           hello_there second_entry "One" "a" "Two" "b");
    try reflexivity.
  - apply NoDup_cons. split; [|apply NoDup_singleton].
    intros Hin. apply list_elem_of_singleton in Hin. discriminate.
  - by left.
  - right. by left.
  - discriminate.
Defined.

(** X13. Posting back what the edit view returned for an entry changes
    nothing: with the title and the text of [json_edit] the store after
    the edit is the store before it, and the answer is the detail of the
    entry as it is. *)
Theorem posting_the_edit_form_back_changes_nothing `{!Markdown, !Int4}
    (st : Store Entry.t) (e : Entry.t) (request : Request) :
  store_ok st → e ∈ rows st →
  truthy (authenticated_userid request) = true →
  method request = POST →
  Entry.bind_id (params request !! "id") = inr (Dict.id (Entry.json_edit e)) →
  params request !! "title" = Dict.title (Entry.json_edit e) →
  params request !! "text" = Dict.text (Entry.json_edit e) →
  ∃ d, Entry.json_detail e = inr d
       ∧ serve edit request st = (Returned (Json d), st).
Proof.
  intros Hok He Hauth Hpost Hid Htitle Htext.
  destruct (row_ok_inv _ _ (store_ok_row _ _ Hok He)) as (i & s & x & Ee & _ & Hfits).
  destruct Hok as [_ Hnd].
  destruct e as [ei et ex ec]. simpl in Ee. injection Ee as -> -> ->.
  simpl in Hid, Htitle, Htext.
  eexists. split; [reflexivity|].
  rewrite (edit_post_succeeds request st _ s x) by done.
  change (edited (Entry.mk (Some i) (Some s) (Some x) ec) s x)
    with (Entry.mk (Some i) (Some s) (Some x) ec).
  rewrite (write_back_same _ _ Hnd He). by destruct st.
Qed.

Lemma posting_the_edit_form_back_witness :
  ∃ d, @Entry.json_detail sample_markdown hello_there = inr d
       ∧ @serve (@edit sample_markdown sample_int4)
           (admin_apply_edit "1" "Hello there" "##This is a post") one_entry_store
         = (Returned (Json d), one_entry_store).
Proof.
  apply (@posting_the_edit_form_back_changes_nothing sample_markdown
           sample_int4 one_entry_store hello_there
           (admin_apply_edit "1" "Hello there" "##This is a post"));
    try reflexivity.
  - split; [reflexivity|]. apply NoDup_singleton.
  - by left.
Defined.

(** X14. A POST to the edit view that lacks a field changes nothing.
    Without a text the rendering of the answer raises before anything is
    written; with a text but without a title the update is rejected by the
    store when the transaction commits.  Either way the exception leaves
    the view uncaught and the entry keeps its title and text. *)
Theorem edit_with_a_missing_field_changes_nothing `{!Markdown, !Int4}
    (st : Store Entry.t) (e : Entry.t) (request : Request) :
  NoDup (ids st) → e ∈ rows st →
  Entry.bind_id (params request !! "id") = inr (Entry.id e) →
  truthy (authenticated_userid request) = true →
  method request = POST →
  (params request !! "text" = None →
   serve edit request st = (Uncaught AttributeError, st))
  ∧ (is_Some (params request !! "text") →
     params request !! "title" = None →
     serve edit request st = (Uncaught IntegrityError, st)).
Proof.
  intros Hnd He Hid Hauth Hpost. destruct st as [rws nxt].
  unfold serve, edit. rewrite Hauth. unfold transaction, bind.
  rewrite (by_id_found _ e), Hpost by done.
  unfold try_except_psycopg2, Entry.editing, dirty, bind, lift, ret; simpl.
  unfold Entry.json_detail, Entry.render_markdown; simpl.
  split.
  - by intros ->.
  - intros [x ->] ->. reflexivity.
Qed.

Lemma edit_with_a_missing_field_witness :
  @serve (@edit sample_markdown sample_int4) admin_edit_without_text one_entry_store
  = (Uncaught AttributeError, one_entry_store)
  ∧ @serve (@edit sample_markdown sample_int4) admin_edit_without_title one_entry_store
    = (Uncaught IntegrityError, one_entry_store).
Proof.
  split.
  - apply (@edit_with_a_missing_field_changes_nothing sample_markdown
             sample_int4 one_entry_store hello_there admin_edit_without_text);
      try reflexivity.
    + apply NoDup_singleton.
    + by left.
  - apply (@edit_with_a_missing_field_changes_nothing sample_markdown
             sample_int4 one_entry_store hello_there admin_edit_without_title);
      try reflexivity.
    + apply NoDup_singleton.
    + by left.
    + by eexists.
Defined.

(** ** Finding entries *)

Lemma filter_id_at_most_one (i : option Z) (l : list Entry.t) :
  NoDup (map Entry.id l) →
  (length (filter (λ r, Entry.id r = i) l) ≤ 1)%nat.
Proof.
  intros Hnd.
  destruct (filter (λ r, Entry.id r = i) l) as [|e l'] eqn:Hf; [simpl; lia|].
  assert (e ∈ filter (λ r, Entry.id r = i) l) as He by (rewrite Hf; by left).
  apply list_elem_of_filter in He as [<- He].
  rewrite (filter_id_unique e l Hnd He) in Hf. by injection Hf as <-.
Qed.

(** X15. On a table without duplicate ids, and for an id whose text the
    database converts to the integer [i], the detail view returns an entry
    exactly when that entry is stored under [i] and fails with
    [NoResultFound] exactly when no entry has the id [i].  It fails with
    [DataError] exactly when the database refuses the text of the id as an
    integer, and it never fails with [MultipleResultsFound]. *)
Theorem detail_entry_finds_exactly_the_stored_entry `{!Int4}
    (request : Request) (st : Store Entry.t) :
  NoDup (ids st) →
  (∀ i, int4_in (matchdict_id request) = Some i →
     (∀ e, serve detail_entry request st = (Returned (DetailPage e), st)
           ↔ e ∈ rows st ∧ Entry.id e = Some i)
     ∧ (serve detail_entry request st = (Uncaught NoResultFound, st)
        ↔ ∀ e, e ∈ rows st → Entry.id e ≠ Some i))
  ∧ (serve detail_entry request st = (Uncaught DataError, st)
     ↔ int4_in (matchdict_id request) = None)
  ∧ fst (serve detail_entry request st) ≠ Uncaught MultipleResultsFound.
Proof.
  intros Hnd.
  destruct (serve_detail_entry_inv request st)
    as [[Hnone E]|(i & Hi & Hcases)].
  { rewrite E. split_and!; [|done|done].
    intros i Hi. congruence. }
  pose proof (filter_id_at_most_one (Some i) (rows st) Hnd) as Hone.
  assert (Hin : ∀ e, e ∈ filter (λ r, Entry.id r = Some i) (rows st)
                     ↔ e ∈ rows st ∧ Entry.id e = Some i).
  { intros e. rewrite list_elem_of_filter. tauto. }
  destruct Hcases as [(e0 & Hf & E)|[[Hf E]|[Hf E]]]; [| |lia];
    rewrite E; rewrite Hf in Hin.
  - split_and!; [|split; [done|congruence]|done].
    intros i' Hi'. assert (i' = i) as -> by congruence. split.
    + intros e. rewrite <- Hin, list_elem_of_singleton.
      split; [by intros [= <-]|by intros ->].
    + split; [done|]. intros Hmiss. exfalso.
      destruct (proj1 (Hin e0)) as [He0 Hid0]; [by left|].
      by apply (Hmiss e0).
  - split_and!; [|split; [done|congruence]|done].
    intros i' Hi'. assert (i' = i) as -> by congruence. split.
    + intros e. rewrite <- Hin. split; [done|]. by intros ?%elem_of_nil.
    + split; [|done]. intros _ e He Hid.
      by apply (elem_of_nil e), Hin.
Qed.

Lemma detail_entry_finds_exactly_the_stored_entry_witness :
  (∀ i, read_int4 "2" = Some i →
     (∀ e, serve (@detail_entry sample_int4) (get_detail "2") two_entry_store
           = (Returned (DetailPage e), two_entry_store)
           ↔ e ∈ [hello_there; second_entry] ∧ Entry.id e = Some i)
     ∧ (serve (@detail_entry sample_int4) (get_detail "2") two_entry_store
        = (Uncaught NoResultFound, two_entry_store)
        ↔ ∀ e, e ∈ [hello_there; second_entry] → Entry.id e ≠ Some i))
  ∧ (serve (@detail_entry sample_int4) (get_detail "2") two_entry_store
     = (Uncaught DataError, two_entry_store)
     ↔ read_int4 "2" = None)
  ∧ fst (serve (@detail_entry sample_int4) (get_detail "2") two_entry_store)
    ≠ Uncaught MultipleResultsFound.
Proof.
  apply (@detail_entry_finds_exactly_the_stored_entry sample_int4
           (get_detail "2") two_entry_store).
  apply NoDup_cons. split; [|apply NoDup_singleton].
  intros Hin. apply list_elem_of_singleton in Hin. discriminate.
Defined.

(** The detail view on the sample store: an entry for [2] and for [ 2 ]
    with blanks around it, [NoResultFound] for [7], [DataError] for a text
    that is not a number and for a number beyond 32 bits. *)
Example detail_entry_samples :
  fst (serve (@detail_entry sample_int4) (get_detail "2") two_entry_store)
  = Returned (DetailPage second_entry)
  ∧ fst (serve (@detail_entry sample_int4) (get_detail " 2 ") two_entry_store)
    = Returned (DetailPage second_entry)
  ∧ fst (serve (@detail_entry sample_int4) (get_detail "7") two_entry_store)
    = Uncaught NoResultFound
  ∧ fst (serve (@detail_entry sample_int4) (get_detail "abc") two_entry_store)
    = Uncaught DataError
  ∧ fst (serve (@detail_entry sample_int4)
           (get_detail "99999999999999999999") two_entry_store)
    = Uncaught DataError.
Proof. split_and!; reflexivity. Qed.

(** X16. Every entry of the listing can be opened: on a table without
    duplicate ids, the detail view of the id of a listed entry returns
    that very entry, and with an identity the edit view read with GET
    returns its edit representation. *)
Theorem listed_entries_can_be_opened `{!Markdown, !Entry.OrderBy, !Int4}
    (request : Request) (st : Store Entry.t) :
  NoDup (ids st) →
  ∃ entries,
    serve read_entries request st = (Returned (ListPage entries), st)
    ∧ ∀ e i, e ∈ entries → Entry.id e = Some i →
        (∀ view_request, int4_in (matchdict_id view_request) = Some i →
           serve detail_entry view_request st = (Returned (DetailPage e), st))
        ∧ (∀ get, truthy (authenticated_userid get) = true →
             method get = GET →
             Entry.bind_id (params get !! "id") = inr (Some i) →
             serve edit get st = (Returned (Json (Entry.json_edit e)), st)).
Proof.
  intros Hnd. exists (Entry.order_by_created_desc (rows st)).
  split; [done|]. intros e i He Hid.
  rewrite (Entry.order_by_permutation (rows st)) in He. split.
  - intros view_request Hview. by apply (detail_entry_found _ _ _ i).
  - intros get Hauth Hget Hpid. apply edit_get_succeeds; congruence.
Qed.

Lemma listed_entries_can_be_opened_witness :
  ∃ entries,
    @serve (@read_entries stable_order) (get_detail "0") two_entry_store
    = (Returned (ListPage entries), two_entry_store)
    ∧ ∀ e i, e ∈ entries → Entry.id e = Some i →
        (∀ view_request, read_int4 (matchdict_id view_request) = Some i →
           serve (@detail_entry sample_int4) view_request two_entry_store
           = (Returned (DetailPage e), two_entry_store))
        ∧ (∀ get, truthy (authenticated_userid get) = true →
             method get = GET →
             @Entry.bind_id sample_int4 (params get !! "id") = inr (Some i) →
             @serve (@edit sample_markdown sample_int4) get two_entry_store
             = (Returned (Json (Entry.json_edit e)), two_entry_store)).
Proof.
  apply (@listed_entries_can_be_opened sample_markdown stable_order sample_int4
           (get_detail "0") two_entry_store).
  apply NoDup_cons. split; [|apply NoDup_singleton].
  intros Hin. apply list_elem_of_singleton in Hin. discriminate.
Defined.

(** X17. After a successful [POST /add] the listing holds the entries it
    held before and the new entry, and nothing else. *)
Theorem created_entry_joins_the_listing `{!Markdown, !Entry.OrderBy}
    (request before_request after_request : Request) (st : Store Entry.t)
    (s x : string) :
  store_ok st →
  truthy (authenticated_userid request) = true →
  method request = POST →
  params request !! "title" = Some s →
  params request !! "text" = Some x →
  Entry.title_fits s = true →
  ∃ before after,
    fst (serve read_entries before_request st) = Returned (ListPage before)
    ∧ fst (serve read_entries after_request (snd (serve add_entry request st)))
      = Returned (ListPage after)
    ∧ after ≡ₚ Entry.mk (Some (next_id st)) (Some s) (Some x) (utcnow request)
                :: before.
Proof.
  intros Hok Hauth Hpost Htitle Htext Hfits.
  destruct (add_entry_succeeds request st s x Hok Hauth Hpost Htitle Htext Hfits)
    as (e & d & _ & _ & _ & _ & _ & Hserve).
  rewrite Hserve. simpl.
  eexists _, _. split_and!; [reflexivity..|].
  rewrite !Entry.order_by_permutation. simpl.
  by rewrite Permutation_app_comm.
Qed.

Lemma created_entry_joins_the_listing_witness :
  ∃ before after,
    fst (@serve (@read_entries stable_order) (get_detail "0") one_entry_store)
    = Returned (ListPage before)
    ∧ fst (@serve (@read_entries stable_order) (get_detail "0")
             (snd (@serve (@add_entry sample_markdown stable_order)
                     admin_add one_entry_store)))
      = Returned (ListPage after)
    ∧ after ≡ₚ Entry.mk (Some 2) (Some "Second") (Some "*more*") jan_6 :: before.
Proof.
  apply (@created_entry_joins_the_listing sample_markdown stable_order
           admin_add (get_detail "0") (get_detail "0") one_entry_store
           "Second" "*more*");
    try reflexivity.
  split; [reflexivity|]. apply NoDup_singleton.
Defined.
